(** * Retrieval evaluation framework (src/src/evaluation.py)

    Shallow embedding of [RetrievalEvaluator]: the IR metrics
    ([_calculate_precision_at_k], [_calculate_recall_at_k],
    [_calculate_reciprocal_rank], the hit test), the per-query
    evaluation [evaluate_single], the run loop and its aggregation
    ([run_evaluation]), JSON persistence ([save_test_cases],
    [load_test_cases], [export_results]), the sample template
    ([create_sample_test_cases]) and the command line ([__main__]).

    Modelling choices:
    - Python floats are modelled as exact rationals [Q]; Python's
      [int / int] true division becomes [Qdiv].
    - [set(xs)] is stdpp's [gset string] built with [list_to_set];
      [len(...)] of a set is [size].
    - The evaluator's methods run in a small state/exception monad
      over a [World] (the evaluator object [self] plus the file system).
      As in Python, mutations done before an exception is raised are
      kept in the state.
    - [k] is a non-negative integer ([nat]); [k = None] is [None]. *)

From Stdlib Require Import QArith Sorting.
From stdpp Require Import base list gmap sets strings.

Set Warnings "-register-all".

Open Scope list_scope.

(** ** Retrieved documents and source extraction *)

(** A retrieved document: only its [metadata] dict is read. *)
Record Document := mkDocument { metadata : gmap string string }.

(** [doc.metadata.get('source_file', 'Unknown')] *)
Definition source_of (doc : Document) : string :=
  default "Unknown"%string (metadata doc !! "source_file"%string).

(** The list comprehension of [evaluate_single], lines 198-201. *)
Definition extract_sources (documents : list Document) : list string :=
  map source_of documents.

(** ** Metric helpers *)

(** Python's [set(xs)]. *)
Definition py_set (xs : list string) : gset string := list_to_set xs.

(** [len(set(retrieved[:k]) & set(relevant))] *)
Definition relevant_retrieved_count (retrieved relevant : list string) (k : nat) : nat :=
  size (py_set (take k retrieved) ∩ py_set relevant).

Definition Q_of_nat (n : nat) : Q := inject_Z (Z.of_nat n).

(** [_calculate_precision_at_k] *)
Definition _calculate_precision_at_k (retrieved relevant : list string) (k : nat) : Q :=
  if Nat.eqb k 0 then 0%Q
  else Qdiv (Q_of_nat (relevant_retrieved_count retrieved relevant k)) (Q_of_nat k).

(** [_calculate_recall_at_k] *)
Definition _calculate_recall_at_k (retrieved relevant : list string) (k : nat) : Q :=
  if Nat.eqb (length relevant) 0 then 0%Q
  else Qdiv (Q_of_nat (relevant_retrieved_count retrieved relevant k))
            (Q_of_nat (length relevant)).

(** The loop [for i, doc in enumerate(retrieved, 1)] of
    [_calculate_reciprocal_rank], from index [i] on. *)
Fixpoint reciprocal_rank_from (i : nat) (retrieved relevant : list string) : Q :=
  match retrieved with
  | [] => 0%Q
  | doc :: rest =>
      if bool_decide (doc ∈ relevant) then Qdiv 1 (Q_of_nat i)
      else reciprocal_rank_from (S i) rest relevant
  end.

(** [_calculate_reciprocal_rank] *)
Definition _calculate_reciprocal_rank (retrieved relevant : list string) : Q :=
  reciprocal_rank_from 1 retrieved relevant.

(** [any(src in expected_sources for src in retrieved_sources[:k])] *)
Definition hit_at_k (retrieved_sources expected_sources : list string) (k : nat) : bool :=
  existsb (fun src => bool_decide (src ∈ expected_sources)) (take k retrieved_sources).

(** [k = k or self.k]: [None] and [0] are falsy and select the default. *)
Definition k_or (k : option nat) (default_k : nat) : nat :=
  match k with
  | Some (S _ as k') => k'
  | _ => default_k
  end.

(** ** Data model *)

(** A test case as stored by [add_test_case]: the dict
    [{"query": ..., "expected_sources": ..., "course_id": ...}]. *)
Record TestCase := mkTestCase {
  case_query : string;
  case_expected_sources : list string;
  case_course_id : option string
}.

Module EvalResult.
(** [@dataclass class EvalResult] *)
Record t := mk {
  query : string;
  expected_sources : list string;
  retrieved_sources : list string;
  precision_at_k : Q;
  recall_at_k : Q;
  reciprocal_rank : Q;
  hit : bool;
  latency_ms : Q
}.
End EvalResult.

Module EvalSummary.
(** [@dataclass class EvalSummary] *)
Record t := mk {
  num_queries : nat;
  precision_at_k : Q;
  recall_at_k : Q;
  mrr : Q;
  hit_rate : Q;
  avg_latency_ms : Q;
  p95_latency_ms : Q;
  timestamp : string
}.
End EvalSummary.

(** Exceptions raised by the code (or by the library calls it makes). *)
Inductive PyError :=
  | ValueError (msg : string)
  | KeyError (key : string)
  | TypeError (msg : string)
  | IndexError
  | ZeroDivisionError
  | FileNotFoundError (path : string)
  | RetrieverError (msg : string).

Inductive Exc (A : Type) := Ok (a : A) | Err (e : PyError).
Arguments Ok {A} a.
Arguments Err {A} e.

(** The external retriever [retriever.retrieve(query=, course_id=, k=)]
    bracketed by the two [time.perf_counter()] readings: given the
    number of environment interactions so far (so that repeated calls
    may answer differently), it returns the documents and the elapsed
    milliseconds, or raises. *)
Definition Retriever :=
  nat -> string -> option string -> nat -> Exc (list Document * Q).

(** The [RetrievalEvaluator] object. *)
Record RetrievalEvaluator := mkEvaluator {
  ev_retriever : Retriever;
  ev_k : nat;
  ev_test_cases : list TestCase;
  ev_results : list EvalResult.t
}.

(** [__init__(self, retriever, k=5)] *)
Definition __init__ (retriever : Retriever) (k : nat) : RetrievalEvaluator :=
  mkEvaluator retriever k [] [].

Definition set_test_cases (tcs : list TestCase) (s : RetrievalEvaluator) :=
  mkEvaluator (ev_retriever s) (ev_k s) tcs (ev_results s).
Definition set_results (rs : list EvalResult.t) (s : RetrievalEvaluator) :=
  mkEvaluator (ev_retriever s) (ev_k s) (ev_test_cases s) rs.

(** JSON values as produced by [json.load] and consumed by [json.dump]. *)
Inductive json :=
  | JNull
  | JBool (b : bool)
  | JInt (z : Z)
  | JFloat (q : Q)
  | JStr (s : string)
  | JArr (xs : list json)
  | JObj (fields : list (string * json)).

(** The world a method runs in: the object [self], the file system
    (a file written by [json.dump] holds the JSON value dumped), a
    counter of interactions with the environment, and the wall clock
    [datetime.now().isoformat()] at each interaction. *)
Record World := mkWorld {
  self : RetrievalEvaluator;
  fs : gmap string json;
  ticks : nat;
  clock : nat -> string
}.

Definition set_self (s : RetrievalEvaluator) (w : World) : World :=
  mkWorld s (fs w) (ticks w) (clock w).
Definition set_fs (f : gmap string json) (w : World) : World :=
  mkWorld (self w) f (ticks w) (clock w).
Definition tick (w : World) : World :=
  mkWorld (self w) (fs w) (S (ticks w)) (clock w).

(** ** The state/exception monad of method bodies *)

Definition M (A : Type) := World -> Exc A * World.

Global Instance M_ret : MRet M := fun A a w => (Ok a, w).
Global Instance M_bind : MBind M := fun A B f m w =>
  match m w with
  | (Ok a, w') => f a w'
  | (Err e, w') => (Err e, w')
  end.

Definition raise {A} (e : PyError) : M A := fun w => (Err e, w).
Definition get_self : M RetrievalEvaluator := fun w => (Ok (self w), w).
Definition modify_self (f : RetrievalEvaluator -> RetrievalEvaluator) : M unit :=
  fun w => (Ok tt, set_self (f (self w)) w).
Definition lift_exc {A} (x : Exc A) : M A := fun w => (x, w).

(** [open(filepath, 'w')] followed by [json.dump(obj, f)]. *)
Definition write_json (filepath : string) (v : json) : M unit :=
  fun w => (Ok tt, set_fs (<[filepath := v]> (fs w)) w).

(** [open(filepath, 'r')] followed by [json.load(f)]. *)
Definition read_json (filepath : string) : M json :=
  fun w => match fs w !! filepath with
           | Some v => (Ok v, w)
           | None => (Err (FileNotFoundError filepath), w)
           end.

(** [datetime.now().isoformat()] *)
Definition now_isoformat : M string :=
  fun w => (Ok (clock w (ticks w)), tick w).

(** One retrieval call through [self.retriever]. *)
Definition call_retriever (r : Retriever) (query : string)
    (course_id : option string) (k : nat) : M (list Document * Q) :=
  fun w => (r (ticks w) query course_id k, tick w).

(** ** Methods of [RetrievalEvaluator] *)

(** [add_test_case(query, expected_sources, course_id=None)] *)
Definition add_test_case (query : string) (expected_sources : list string)
    (course_id : option string) : M unit :=
  modify_self (fun s =>
    set_test_cases (ev_test_cases s ++ [mkTestCase query expected_sources course_id]) s).

(** [evaluate_single(query, expected_sources, course_id=None, k=None)] *)
Definition evaluate_single (query : string) (expected_sources : list string)
    (course_id : option string) (k : option nat) : M EvalResult.t :=
  s ← get_self;
  let k := k_or k (ev_k s) in
  r ← call_retriever (ev_retriever s) query course_id k;
  let '(documents, latency_ms) := r in
  let retrieved_sources := extract_sources documents in
  let precision := _calculate_precision_at_k retrieved_sources expected_sources k in
  let recall := _calculate_recall_at_k retrieved_sources expected_sources k in
  let rr := _calculate_reciprocal_rank retrieved_sources expected_sources in
  let hit := hit_at_k retrieved_sources expected_sources k in
  mret (EvalResult.mk query expected_sources retrieved_sources
          precision recall rr hit latency_ms).

(** The loop [for i, case in enumerate(self.test_cases, 1)] of
    [run_evaluation]: each result is appended to [self.results] as soon
    as it is computed; the latencies are returned in order. *)
Fixpoint run_cases (k : nat) (cases : list TestCase) : M (list Q) :=
  match cases with
  | [] => mret []
  | case :: rest =>
      result ← evaluate_single (case_query case) (case_expected_sources case)
                     (case_course_id case) (Some k);
      _u ← modify_self (fun s => set_results (ev_results s ++ [result]) s);
      latencies ← run_cases k rest;
      mret (EvalResult.latency_ms result :: latencies)
  end.

(** Python's [sum(xs)]: [0 + x1 + x2 + ...] from the left. *)
Definition py_sum (xs : list Q) : Q := fold_left Qplus xs 0%Q.

(** [sorted(latencies)]: a stable ascending sort. *)
Fixpoint insert_sorted (x : Q) (xs : list Q) : list Q :=
  match xs with
  | [] => [x]
  | y :: ys => if Qle_bool x y then x :: y :: ys else y :: insert_sorted x ys
  end.

Fixpoint sorted_q (xs : list Q) : list Q :=
  match xs with
  | [] => []
  | x :: rest => insert_sorted x (sorted_q rest)
  end.

(** [int(0.95 * n)].  For every list length below 10^14 the double
    [0.95 * n] truncates to [floor (95 n / 100)]: the product of the
    double nearest 0.95 with such an [n] never crosses an integer. *)
Definition p95_index (n : nat) : nat := Nat.div (95 * n) 100.

(** [sorted(latencies)[int(0.95 * n)] if n > 1 else latencies[0]] *)
Definition p95_of (latencies : list Q) (n : nat) : Exc Q :=
  match (if Nat.ltb 1 n then nth_error (sorted_q latencies) (p95_index n)
         else nth_error latencies 0) with
  | Some v => Ok v
  | None => Err IndexError
  end.

Definition hit_as_int (b : bool) : Q := if b then 1%Q else 0%Q.

(** [run_evaluation(k=None, verbose=True)]; printing is not modelled. *)
Definition run_evaluation (k : option nat) : M EvalSummary.t :=
  s ← get_self;
  match ev_test_cases s with
  | [] => raise (ValueError
            "No test cases added. Use add_test_case() or load_test_cases() first.")
  | _ :: _ =>
      let k := k_or k (ev_k s) in
      _u ← modify_self (set_results []);
      latencies ← run_cases k (ev_test_cases s);
      s2 ← get_self;
      let results := ev_results s2 in
      let n := length results in
      if Nat.eqb n 0 then raise ZeroDivisionError else
      let nq := Q_of_nat n in
      p95 ← lift_exc (p95_of latencies n);
      ts ← now_isoformat;
      mret (EvalSummary.mk n
              (py_sum (map EvalResult.precision_at_k results) / nq)
              (py_sum (map EvalResult.recall_at_k results) / nq)
              (py_sum (map EvalResult.reciprocal_rank results) / nq)
              (py_sum (map (fun r => hit_as_int (EvalResult.hit r)) results) / nq)
              (py_sum latencies / nq)
              p95 ts)
  end.

(** ** JSON persistence *)

Definition json_of_opt_str (o : option string) : json :=
  match o with Some s => JStr s | None => JNull end.

(** The dict stored by [add_test_case], as [json.dump] writes it. *)
Definition json_of_test_case (c : TestCase) : json :=
  JObj [("query", JStr (case_query c));
        ("expected_sources", JArr (map JStr (case_expected_sources c)));
        ("course_id", json_of_opt_str (case_course_id c))]%string.

(** [save_test_cases(filepath)] *)
Definition save_test_cases (filepath : string) : M unit :=
  s ← get_self;
  write_json filepath (JArr (map json_of_test_case (ev_test_cases s))).

(** Key lookup in a dict decoded by [json.load]: a repeated key keeps
    its last value. *)
Fixpoint json_get (key : string) (fields : list (string * json)) : option json :=
  match fields with
  | [] => None
  | (k, v) :: rest =>
      match json_get key rest with
      | Some v' => Some v'
      | None => if String.eqb k key then Some v else None
      end
  end.

(** [case[key]] *)
Definition py_getitem (case : json) (key : string) : Exc json :=
  match case with
  | JObj fields =>
      match json_get key fields with Some v => Ok v | None => Err (KeyError key) end
  | _ => Err (TypeError "indices must be integers")
  end.

(** [case.get(key)] on a dict ([None] when absent). *)
Definition py_get (case : json) (key : string) : option json :=
  match case with JObj fields => json_get key fields | _ => None end.

(** [for case in cases]: the elements a JSON value iterates over. *)
Definition py_iter (v : json) : Exc (list json) :=
  match v with
  | JArr xs => Ok xs
  | JObj fields => Ok (map (fun kv => JStr kv.1) fields)
  | JStr s => Ok (map (fun c => JStr (String c EmptyString)) (String.list_ascii_of_string s))
  | _ => Err (TypeError "object is not iterable")
  end.

(** The test cases of this model carry the types of [add_test_case]'s
    signature; the source stores loaded values untyped, values of other
    JSON types are reported here as a [TypeError]. *)
Definition str_of_json (v : json) : Exc string :=
  match v with JStr s => Ok s | _ => Err (TypeError "expected str") end.

Fixpoint strs_of_jsons (vs : list json) : Exc (list string) :=
  match vs with
  | [] => Ok []
  | JStr s :: rest =>
      match strs_of_jsons rest with Ok ss => Ok (s :: ss) | Err e => Err e end
  | _ :: _ => Err (TypeError "expected str")
  end.

Definition str_list_of_json (v : json) : Exc (list string) :=
  match v with JArr vs => strs_of_jsons vs | _ => Err (TypeError "expected list") end.

Definition opt_str_of_json (o : option json) : Exc (option string) :=
  match o with
  | None | Some JNull => Ok None
  | Some (JStr s) => Ok (Some s)
  | Some _ => Err (TypeError "expected str or None")
  end.

(** [query=case["query"], expected_sources=case["expected_sources"],
    course_id=case.get("course_id")], evaluated in this order. *)
Definition case_args (case : json) : Exc TestCase :=
  match py_getitem case "query" with
  | Err e => Err e
  | Ok q =>
      match py_getitem case "expected_sources" with
      | Err e => Err e
      | Ok es =>
          let c := py_get case "course_id" in
          match str_of_json q, str_list_of_json es, opt_str_of_json c with
          | Ok q', Ok es', Ok c' => Ok (mkTestCase q' es' c')
          | Err e, _, _ | _, Err e, _ | _, _, Err e => Err e
          end
      end
  end.

(** The loop of [load_test_cases]: cases before a failing one stay added. *)
Fixpoint load_cases (cases : list json) : M unit :=
  match cases with
  | [] => mret tt
  | case :: rest =>
      tc ← lift_exc (case_args case);
      _u ← add_test_case (case_query tc) (case_expected_sources tc) (case_course_id tc);
      load_cases rest
  end.

(** [load_test_cases(filepath)] *)
Definition load_test_cases (filepath : string) : M nat :=
  v ← read_json filepath;
  cases ← lift_exc (py_iter v);
  _u ← load_cases cases;
  mret (length cases).

Definition json_of_result (r : EvalResult.t) : json :=
  JObj [("query", JStr (EvalResult.query r));
        ("expected_sources", JArr (map JStr (EvalResult.expected_sources r)));
        ("retrieved_sources", JArr (map JStr (EvalResult.retrieved_sources r)));
        ("precision_at_k", JFloat (EvalResult.precision_at_k r));
        ("recall_at_k", JFloat (EvalResult.recall_at_k r));
        ("reciprocal_rank", JFloat (EvalResult.reciprocal_rank r));
        ("hit", JBool (EvalResult.hit r));
        ("latency_ms", JFloat (EvalResult.latency_ms r))]%string.

(** [export_results(filepath)] *)
Definition export_results (filepath : string) : M unit :=
  s ← get_self;
  match ev_results s with
  | [] => raise (ValueError "No results to export. Run evaluation first.")
  | _ :: _ =>
      ts ← now_isoformat;
      write_json filepath
        (JObj [("timestamp", JStr ts);
               ("k", JInt (Z.of_nat (ev_k s)));
               ("num_queries", JInt (Z.of_nat (length (ev_results s))));
               ("results", JArr (map json_of_result (ev_results s)))]%string)
  end.

(** ** Sessions: any sequence of method calls on one evaluator *)

Inductive Call :=
  | CallAddTestCase (query : string) (expected_sources : list string)
      (course_id : option string)
  | CallLoadTestCases (filepath : string)
  | CallSaveTestCases (filepath : string)
  | CallEvaluateSingle (query : string) (expected_sources : list string)
      (course_id : option string) (k : option nat)
  | CallRunEvaluation (k : option nat)
  | CallExportResults (filepath : string).

Definition exec_call (c : Call) : M unit :=
  match c with
  | CallAddTestCase q es c => add_test_case q es c
  | CallLoadTestCases p => _n ← load_test_cases p; mret tt
  | CallSaveTestCases p => save_test_cases p
  | CallEvaluateSingle q es c k => _r ← evaluate_single q es c k; mret tt
  | CallRunEvaluation k => _s ← run_evaluation k; mret tt
  | CallExportResults p => export_results p
  end.

(** The calls run in order; a raised exception is caught by the caller,
    who goes on with the world as the failing call left it. *)
Fixpoint exec_calls (cs : list Call) (w : World) : World :=
  match cs with
  | [] => w
  | c :: rest => exec_calls rest (snd (exec_call c w))
  end.

(** ** Sample sessions (concrete inputs used by the witnesses) *)

Definition doc_from (src : string) : Document :=
  mkDocument {[ "source_file"%string := src ]}.

(** A document whose metadata has no [source_file]. *)
Definition doc_no_metadata : Document := mkDocument ∅.

Definition sample_clock : nat -> string := fun _ => "2026-01-01T00:00:00"%string.

Definition world_of (s : RetrievalEvaluator) : World := mkWorld s ∅ 0 sample_clock.

Definition sample_case (query : string) (expected_sources : list string) : TestCase :=
  mkTestCase query expected_sources None.

Definition no_summary : EvalSummary.t := EvalSummary.mk 0 0 0 0 0 0 0 "".

(** The summary of a successful call, [no_summary] otherwise. *)
Definition summary_of (r : Exc EvalSummary.t * World) : EvalSummary.t :=
  match fst r with Ok s => s | Err _ => no_summary end.

(** Five queries; the n-th retrieval call (from 0) takes [50 - 10 n] ms. *)
Definition retriever_slowing_down : Retriever :=
  fun t _ _ _ => Ok ([doc_from "syllabus.pdf"], Q_of_nat (50 - 10 * t)).

Definition world_p95 : World :=
  world_of (set_test_cases
    [sample_case "What is the grading policy?" ["syllabus.pdf"];
     sample_case "When is the midterm exam scheduled?" ["syllabus.pdf"; "schedule.pdf"];
     sample_case "What are the office hours?" ["syllabus.pdf"];
     sample_case "What topics are covered in week 3?" ["schedule.pdf"; "lecture_03.pdf"];
     sample_case "What is the late submission policy?" ["syllabus.pdf"]]%string
    (__init__ retriever_slowing_down 5)).

(** A retriever that always ranks [syllabus.pdf] first, in 100 ms. *)
Definition retriever_syllabus : Retriever :=
  fun _ _ _ _ => Ok ([doc_from "syllabus.pdf"], 100%Q).

(** Two queries, a hit and a miss at [k = 1]. *)
Definition world_hit_miss : World :=
  world_of (set_test_cases
    [sample_case "What is the grading policy?" ["syllabus.pdf"];
     sample_case "What topics are covered in week 3?" ["lecture_03.pdf"]]%string
    (__init__ retriever_syllabus 1)).

(** A retriever whose top document has no [source_file] metadata. *)
Definition retriever_unknown : Retriever :=
  fun _ _ _ _ => Ok ([doc_no_metadata; doc_from "notes.pdf"], 80%Q).

(** One registered query, default [k = 5]. *)
Definition world_one_case : World :=
  world_of (set_test_cases
    [sample_case "What is the grading policy?" ["syllabus.pdf"]]%string
    (__init__ retriever_syllabus 5)).

(** ** Frame predicate *)

(** A method body that leaves the default [self.k] as it found it,
    whether it returns or raises. *)
Definition preserves_k {A} (m : M A) : Prop :=
  ∀ w, ev_k (self (snd (m w))) = ev_k (self w).

(** ** Sample test cases and the command line *)

(** [create_sample_test_cases()] *)
Definition create_sample_test_cases : list TestCase :=
  [mkTestCase "What is the grading policy for this course?" ["syllabus.pdf"] None;
   mkTestCase "When is the midterm exam scheduled?" ["syllabus.pdf"; "schedule.pdf"] None;
   mkTestCase "What are the office hours?" ["syllabus.pdf"] None;
   mkTestCase "What topics are covered in week 3?" ["schedule.pdf"; "lecture_03.pdf"] None;
   mkTestCase "What is the late submission policy?" ["syllabus.pdf"] None]%string.

(** Truth value of an optional string argument: [None] and [""] are falsy. *)
Definition py_truthy_str (o : option string) : option string :=
  match o with
  | Some EmptyString | None => None
  | Some p => Some p
  end.

(** [for case in create_sample_test_cases(): evaluator.add_test_case with each case] *)
Fixpoint add_cases (cases : list TestCase) : M unit :=
  match cases with
  | [] => mret tt
  | c :: rest =>
      _u ← add_test_case (case_query c) (case_expected_sources c) (case_course_id c);
      add_cases rest
  end.

(** The [__main__] block with the parsed arguments [--test-file],
    [--k], [--export], [--generate-template]; [retriever] is the
    [CourseRetriever] built over the vector store.  Printing is not
    modelled; [sys.exit(0)] ends the template branch. *)
Definition cli_main (retriever : Retriever) (test_file : option string) (k : nat)
    (export : option string) (generate_template : option string) : M unit :=
  match py_truthy_str generate_template with
  | Some path => write_json path (JArr (map json_of_test_case create_sample_test_cases))
  | None =>
      _u ← modify_self (fun _ => __init__ retriever k);
      _v ← match py_truthy_str test_file with
           | Some p => _n ← load_test_cases p; mret tt
           | None => add_cases create_sample_test_cases
           end;
      _summary ← run_evaluation (Some k);
      match py_truthy_str export with
      | Some p => export_results p
      | None => mret tt
      end
  end.

(** A method body that leaves the file system as it found it. *)
Definition preserves_fs {A} (m : M A) : Prop :=
  ∀ w, fs (snd (m w)) = fs w.

(** A retriever that raises on its second call (interaction 1). *)
Definition retriever_fails_second : Retriever :=
  fun t _ _ _ => if Nat.eqb t 1 then Err (RetrieverError "connection reset")
                 else Ok ([doc_from "syllabus.pdf"], 100%Q).

(** Two queries against [retriever_fails_second]. *)
Definition world_fails_second : World :=
  world_of (set_test_cases
    [sample_case "What is the grading policy?" ["syllabus.pdf"];
     sample_case "What are the office hours?" ["syllabus.pdf"]]%string
    (__init__ retriever_fails_second 5)).

(** * Proofs *)

(** ** Counting lemmas for the set intersection *)

Lemma size_py_set_le (l : list string) : size (py_set l) ≤ length l.
Proof.
  unfold py_set. induction l as [|x l IH].
  - rewrite list_to_set_nil, size_empty. simpl. lia.
  - rewrite list_to_set_cons, size_union_alt, size_singleton. simpl.
    pose proof (subseteq_size (list_to_set l ∖ {[x]} : gset string)
                  (list_to_set l)) as Hsub.
    specialize (Hsub ltac:(set_solver)). lia.
Qed.

Lemma relevant_retrieved_count_le_k (retrieved relevant : list string) (k : nat) :
  relevant_retrieved_count retrieved relevant k ≤ k.
Proof.
  unfold relevant_retrieved_count.
  etrans; [apply subseteq_size; apply intersection_subseteq_l|].
  etrans; [apply size_py_set_le|]. rewrite length_take. lia.
Qed.

Lemma relevant_retrieved_count_le_relevant (retrieved relevant : list string) (k : nat) :
  relevant_retrieved_count retrieved relevant k ≤ length relevant.
Proof.
  unfold relevant_retrieved_count.
  etrans; [apply subseteq_size; apply intersection_subseteq_r|].
  apply size_py_set_le.
Qed.

Lemma Q_of_nat_le (a b : nat) : a ≤ b → (Q_of_nat a <= Q_of_nat b)%Q.
Proof. intros H. unfold Q_of_nat. rewrite <- Zle_Qle. lia. Qed.

Lemma Q_of_nat_pos (a : nat) : 0 < a → (0 < Q_of_nat a)%Q.
Proof. intros H. unfold Q_of_nat. change 0%Q with (inject_Z 0). rewrite <- Zlt_Qlt. lia. Qed.

Lemma Q_of_nat_nonneg (a : nat) : (0 <= Q_of_nat a)%Q.
Proof. change 0%Q with (Q_of_nat 0). apply Q_of_nat_le. lia. Qed.

Lemma Qdiv_nat_in_unit (c d : nat) :
  c ≤ d → 0 < d → (0 <= Q_of_nat c / Q_of_nat d <= 1)%Q.
Proof.
  intros Hcd Hd. pose proof (Q_of_nat_pos d Hd) as Hpos. split.
  - apply Qle_shift_div_l; [exact Hpos|]. rewrite Qmult_0_l. apply Q_of_nat_nonneg.
  - apply Qle_shift_div_r; [exact Hpos|]. rewrite Qmult_1_l. apply Q_of_nat_le. exact Hcd.
Qed.

Lemma precision_in_unit (retrieved relevant : list string) (k : nat) :
  (0 <= _calculate_precision_at_k retrieved relevant k <= 1)%Q.
Proof.
  unfold _calculate_precision_at_k. destruct (Nat.eqb_spec k 0) as [->|Hk].
  - split; discriminate.
  - apply Qdiv_nat_in_unit; [apply relevant_retrieved_count_le_k | lia].
Qed.

Lemma recall_in_unit (retrieved relevant : list string) (k : nat) :
  (0 <= _calculate_recall_at_k retrieved relevant k <= 1)%Q.
Proof.
  unfold _calculate_recall_at_k. destruct (Nat.eqb _ 0) eqn:Hk.
  - split; discriminate.
  - apply Nat.eqb_neq in Hk.
    apply Qdiv_nat_in_unit; [apply relevant_retrieved_count_le_relevant | lia].
Qed.

(** ** C1 *)

(** C1: for [k >= 1], precision@k is [|set(retrieved[:k]) ∩ set(expected)| / k],
    recall@k is that count divided by [len(expected)] (and [0.0] whenever
    [expected] is empty, whatever was retrieved), and both lie in [[0,1]]. *)
Theorem precision_recall_formula_and_bounds
    (retrieved expected : list string) (k : nat) (Hk : 1 ≤ k) :
  _calculate_precision_at_k retrieved expected k
    == Q_of_nat (size (list_to_set (take k retrieved) ∩ list_to_set expected : gset string))
       / Q_of_nat k
  /\ _calculate_recall_at_k retrieved expected k
    == (if decide (expected = []) then 0%Q
        else Q_of_nat (size (list_to_set (take k retrieved) ∩ list_to_set expected : gset string))
             / Q_of_nat (length expected))
  /\ (0 <= _calculate_precision_at_k retrieved expected k <= 1)%Q
  /\ (0 <= _calculate_recall_at_k retrieved expected k <= 1)%Q.
Proof.
  split; [|split; [|split]].
  - unfold _calculate_precision_at_k. destruct (Nat.eqb_spec k 0); [lia|]. reflexivity.
  - unfold _calculate_recall_at_k.
    destruct (decide (expected = [])) as [->|Hne]; [reflexivity|].
    destruct (Nat.eqb _ 0) eqn:Hl.
    + apply Nat.eqb_eq, nil_length_inv in Hl. contradiction.
    + reflexivity.
  - apply precision_in_unit.
  - apply recall_in_unit.
Qed.

Lemma precision_recall_formula_and_bounds_witness :
  1 ≤ 5 /\
  (_calculate_precision_at_k ["syllabus.pdf"; "notes.pdf"; "schedule.pdf"]
     ["syllabus.pdf"] 5 == 1 # 5
  /\ _calculate_recall_at_k ["syllabus.pdf"; "notes.pdf"; "schedule.pdf"]
     ["syllabus.pdf"] 5 == 1)%string
  /\ (0 <= _calculate_precision_at_k ["syllabus.pdf"; "notes.pdf"; "schedule.pdf"]
     ["syllabus.pdf"] 5 <= 1)%string%Q.
Proof.
  split; [lia|].
  pose proof (precision_recall_formula_and_bounds
                ["syllabus.pdf"; "notes.pdf"; "schedule.pdf"]%string
                ["syllabus.pdf"]%string 5 ltac:(lia)) as (_ & _ & Hp & _).
  split; [split; vm_compute; reflexivity | exact Hp].
Defined.

(** ** Reciprocal rank and hit *)

Lemma reciprocal_rank_from_first (i : nat) (retrieved relevant : list string)
    (j : nat) (x : string) :
  retrieved !! j = Some x → x ∈ relevant →
  (∀ j' y, j' < j → retrieved !! j' = Some y → y ∉ relevant) →
  reciprocal_rank_from i retrieved relevant = Qdiv 1 (Q_of_nat (i + j)).
Proof.
  revert i j. induction retrieved as [|d rest IH]; intros i j Hj Hx Hbefore; [done|].
  simpl. destruct j as [|j].
  - simpl in Hj. injection Hj as ->. rewrite bool_decide_true by done.
    rewrite Nat.add_0_r. reflexivity.
  - rewrite bool_decide_false.
    + rewrite (IH (S i) j Hj Hx).
      * replace (S i + j) with (i + S j) by lia. reflexivity.
      * intros j' y Hlt Hy. apply (Hbefore (S j') y); [lia|exact Hy].
    + apply (Hbefore 0 d); [lia|reflexivity].
Qed.

Lemma reciprocal_rank_from_none (i : nat) (retrieved relevant : list string) :
  (∀ x, x ∈ retrieved → x ∉ relevant) →
  reciprocal_rank_from i retrieved relevant = 0%Q.
Proof.
  revert i. induction retrieved as [|d rest IH]; intros i Hnone; [done|].
  simpl. rewrite bool_decide_false.
  - apply IH. intros x Hx. apply Hnone. by constructor.
  - apply Hnone. by constructor.
Qed.

Lemma reciprocal_rank_from_pos (i : nat) (retrieved relevant : list string) :
  1 ≤ i → (∃ x, x ∈ retrieved ∧ x ∈ relevant) →
  (0 < reciprocal_rank_from i retrieved relevant)%Q.
Proof.
  revert i. induction retrieved as [|d rest IH]; intros i Hi [x [Hx Hrel]].
  - inversion Hx.
  - simpl. case_bool_decide as Hd.
    + apply Qlt_shift_div_l; [apply Q_of_nat_pos; lia|].
      rewrite Qmult_0_l. reflexivity.
    + apply IH; [lia|]. exists x. split; [|exact Hrel].
      apply elem_of_cons in Hx as [->|Hx]; [contradiction|exact Hx].
Qed.

Lemma hit_at_k_spec (retrieved expected : list string) (k : nat) :
  hit_at_k retrieved expected k = true ↔ ∃ x, x ∈ take k retrieved ∧ x ∈ expected.
Proof.
  unfold hit_at_k. rewrite existsb_exists. split.
  - intros [x [Hin Hx]]. exists x. split.
    + by apply list_elem_of_In.
    + by apply bool_decide_eq_true in Hx.
  - intros [x [Hin Hx]]. exists x. split.
    + by apply list_elem_of_In.
    + by apply bool_decide_eq_true.
Qed.

(** ** C2 *)

(** C2: the reciprocal rank is [1 / r] for the 1-based rank [r] of the
    first element of the FULL retrieved list that is expected, [0.0] if
    there is none; [hit] holds iff some element of [retrieved[:k]] is
    expected.  Hence a relevant item ranked only after the top [k] gives
    a positive reciprocal rank together with [hit = false]. *)
Theorem reciprocal_rank_full_list_hit_top_k (retrieved expected : list string) (k : nat) :
  (∀ i x, retrieved !! i = Some x → x ∈ expected →
     (∀ j y, j < i → retrieved !! j = Some y → y ∉ expected) →
     _calculate_reciprocal_rank retrieved expected == Qdiv 1 (Q_of_nat (S i)))
  /\ ((∀ x, x ∈ retrieved → x ∉ expected) →
      _calculate_reciprocal_rank retrieved expected == 0)
  /\ (hit_at_k retrieved expected k = true ↔ ∃ x, x ∈ take k retrieved ∧ x ∈ expected)
  /\ ((∀ x, x ∈ take k retrieved → x ∉ expected) →
      (∃ x, x ∈ retrieved ∧ x ∈ expected) →
      (0 < _calculate_reciprocal_rank retrieved expected)%Q
      ∧ hit_at_k retrieved expected k = false).
Proof.
  split; [|split; [|split]].
  - intros i x Hi Hx Hbefore. unfold _calculate_reciprocal_rank.
    rewrite (reciprocal_rank_from_first 1 retrieved expected i x Hi Hx Hbefore).
    reflexivity.
  - intros Hnone. unfold _calculate_reciprocal_rank.
    rewrite reciprocal_rank_from_none by exact Hnone. reflexivity.
  - apply hit_at_k_spec.
  - intros Htop Hsome. split.
    + apply reciprocal_rank_from_pos; [lia|exact Hsome].
    + destruct (hit_at_k retrieved expected k) eqn:Hh; [|reflexivity].
      apply hit_at_k_spec in Hh as [x [Hx Hex]]. by destruct (Htop x Hx).
Qed.

Lemma reciprocal_rank_full_list_hit_top_k_witness :
  (0 < _calculate_reciprocal_rank ["notes.pdf"; "schedule.pdf"; "syllabus.pdf"]
         ["syllabus.pdf"])%Q%string
  ∧ hit_at_k ["notes.pdf"; "schedule.pdf"; "syllabus.pdf"] ["syllabus.pdf"] 1 = false.
Proof.
  apply (reciprocal_rank_full_list_hit_top_k
           ["notes.pdf"; "schedule.pdf"; "syllabus.pdf"]%string ["syllabus.pdf"]%string 1).
  - intros x Hx. simpl in Hx. apply list_elem_of_singleton in Hx as ->.
    intros Hin. apply list_elem_of_singleton in Hin. discriminate.
  - exists "syllabus.pdf"%string. split; [by repeat constructor | by constructor].
Defined.

(** ** Method bodies *)

Ltac unfold_M :=
  unfold mbind, M_bind, mret, M_ret, get_self, modify_self, raise, lift_exc,
    call_retriever, now_isoformat, write_json, read_json in *.

Lemma k_or_some_k_or (k : option nat) (d : nat) : k_or (Some (k_or k d)) d = k_or k d.
Proof. destruct k as [[|k]|]; simpl; try reflexivity; destruct d; reflexivity. Qed.

Lemma evaluate_single_self_eq (query : string) (expected_sources : list string)
    (course_id : option string) (k : option nat) (w : World) :
  self (snd (evaluate_single query expected_sources course_id k w)) = self w.
Proof.
  unfold evaluate_single. unfold_M. simpl.
  destruct (ev_retriever (self w) _ _ _ _) as [[documents latency_ms]|e]; reflexivity.
Qed.

Lemma evaluate_single_ok (query : string) (expected_sources : list string)
    (course_id : option string) (k : option nat) (w w' : World) (r : EvalResult.t) :
  evaluate_single query expected_sources course_id k w = (Ok r, w') →
  w' = tick w ∧
  ∃ documents latency_ms,
    ev_retriever (self w) (ticks w) query course_id (k_or k (ev_k (self w)))
      = Ok (documents, latency_ms)
    ∧ r = EvalResult.mk query expected_sources (extract_sources documents)
            (_calculate_precision_at_k (extract_sources documents) expected_sources
               (k_or k (ev_k (self w))))
            (_calculate_recall_at_k (extract_sources documents) expected_sources
               (k_or k (ev_k (self w))))
            (_calculate_reciprocal_rank (extract_sources documents) expected_sources)
            (hit_at_k (extract_sources documents) expected_sources (k_or k (ev_k (self w))))
            latency_ms.
Proof.
  unfold evaluate_single. unfold_M. simpl.
  destruct (ev_retriever (self w) _ _ _ _) as [[documents latency_ms]|e];
    intros H; inversion H; subst.
  split; [reflexivity|]. exists documents, latency_ms. split; reflexivity.
Qed.

Lemma evaluate_single_err (query : string) (expected_sources : list string)
    (course_id : option string) (k : option nat) (w w' : World) (e : PyError) :
  evaluate_single query expected_sources course_id k w = (Err e, w') →
  ev_retriever (self w) (ticks w) query course_id (k_or k (ev_k (self w))) = Err e.
Proof.
  unfold evaluate_single. unfold_M. simpl.
  destruct (ev_retriever (self w) _ _ _ _) as [[documents latency_ms]|e'];
    intros H; inversion H; subst; reflexivity.
Qed.

Lemma run_cases_ok (k : nat) (cases : list TestCase) (w w' : World) (latencies : list Q) :
  run_cases k cases w = (Ok latencies, w') →
  ev_k (self w') = ev_k (self w)
  ∧ ev_test_cases (self w') = ev_test_cases (self w)
  ∧ ev_retriever (self w') = ev_retriever (self w)
  ∧ ∃ rs,
      ev_results (self w') = ev_results (self w) ++ rs
      ∧ latencies = map EvalResult.latency_ms rs
      ∧ Forall2 (fun case r =>
           ∃ documents latency_ms,
             let kk := k_or (Some k) (ev_k (self w)) in
             let retrieved := extract_sources documents in
             r = EvalResult.mk (case_query case) (case_expected_sources case) retrieved
                   (_calculate_precision_at_k retrieved (case_expected_sources case) kk)
                   (_calculate_recall_at_k retrieved (case_expected_sources case) kk)
                   (_calculate_reciprocal_rank retrieved (case_expected_sources case))
                   (hit_at_k retrieved (case_expected_sources case) kk)
                   latency_ms) cases rs.
Proof.
  revert w w' latencies. induction cases as [|case rest IH]; intros w w' latencies H.
  - simpl in H. unfold_M. inversion H; subst.
    split; [done|split; [done|split; [done|]]].
    exists []. rewrite app_nil_r. split; [done|split; [done|constructor]].
  - simpl in H. unfold mbind, M_bind in H.
    destruct (evaluate_single _ _ _ _ w) as [[r|e] w1] eqn:E; [|discriminate].
    apply evaluate_single_ok in E as [-> [documents [latency_ms [_ Hr]]]].
    unfold modify_self in H. simpl in H.
    destruct (run_cases k rest _) as [[lats|e] w2] eqn:E2; [|discriminate].
    unfold mret, M_ret in H. inversion H; subst latencies w2. clear H.
    apply IH in E2 as (Hk & Htc & Hret & rs & Hres & Hlat & Hall). simpl in *.
    split; [exact Hk|split; [exact Htc|split; [exact Hret|]]].
    exists (r :: rs). split; [|split].
    + rewrite Hres. rewrite <- app_assoc. reflexivity.
    + simpl. rewrite Hlat. reflexivity.
    + constructor.
      * exists documents, latency_ms. exact Hr.
      * exact Hall.
Qed.

Lemma run_evaluation_ok (k : option nat) (w w' : World) (summary : EvalSummary.t) :
  run_evaluation k w = (Ok summary, w') →
  ev_test_cases (self w) ≠ []
  ∧ ev_k (self w') = ev_k (self w)
  ∧ ev_test_cases (self w') = ev_test_cases (self w)
  ∧ ev_retriever (self w') = ev_retriever (self w)
  ∧ length (ev_results (self w')) = length (ev_test_cases (self w))
  ∧ Forall2 (fun case r =>
       ∃ documents latency_ms,
         let kk := k_or k (ev_k (self w)) in
         let retrieved := extract_sources documents in
         r = EvalResult.mk (case_query case) (case_expected_sources case) retrieved
               (_calculate_precision_at_k retrieved (case_expected_sources case) kk)
               (_calculate_recall_at_k retrieved (case_expected_sources case) kk)
               (_calculate_reciprocal_rank retrieved (case_expected_sources case))
               (hit_at_k retrieved (case_expected_sources case) kk)
               latency_ms) (ev_test_cases (self w)) (ev_results (self w'))
  ∧ let rs := ev_results (self w') in
    let n := length rs in
    ∃ p95 ts,
      p95_of (map EvalResult.latency_ms rs) n = Ok p95
      ∧ summary = EvalSummary.mk n
          (py_sum (map EvalResult.precision_at_k rs) / Q_of_nat n)
          (py_sum (map EvalResult.recall_at_k rs) / Q_of_nat n)
          (py_sum (map EvalResult.reciprocal_rank rs) / Q_of_nat n)
          (py_sum (map (fun r => hit_as_int (EvalResult.hit r)) rs) / Q_of_nat n)
          (py_sum (map EvalResult.latency_ms rs) / Q_of_nat n)
          p95 ts.
Proof.
  intros H. unfold run_evaluation in H. unfold mbind, M_bind, get_self in H.
  cbn -[run_cases p95_of] in H.
  destruct (ev_test_cases (self w)) as [|c0 cs] eqn:Etc.
  { unfold raise in H. discriminate. }
  unfold modify_self in H. cbn -[run_cases p95_of] in H.
  destruct (run_cases _ (c0 :: cs) _) as [[lats|e] w2] eqn:E; [|discriminate].
  apply run_cases_ok in E as (Hk & Htc & Hret & rs & Hres & Hlat & Hall).
  simpl in Hk, Htc, Hret, Hres. cbn [self set_self ev_k set_results] in Hall.
  rewrite k_or_some_k_or in Hall.
  rewrite Hres in H. cbn -[p95_of] in H.
  pose proof (Forall2_length _ _ _ Hall) as Hlen. simpl in Hlen.
  destruct (Nat.eqb_spec (length rs) 0) as [H0|_]; [lia|].
  unfold lift_exc in H. subst lats.
  destruct (p95_of (map EvalResult.latency_ms rs) (length rs)) as [p95|e] eqn:Ep;
    [|discriminate].
  unfold now_isoformat, mret, M_ret in H. simpl in H. inversion H; subst. clear H.
  simpl. rewrite ?Hk, ?Htc, ?Hret. simpl.
  split; [discriminate|split; [done|split; [done|split; [done|split; [done|split]]]]].
  - exact Hall.
  - exists p95, (clock w2 (ticks w2)). split; [exact Ep|reflexivity].
Qed.

(** ** The sort of [sorted(latencies)] *)

Lemma insert_sorted_sorted (x : Q) (l : list Q) :
  Sorted Qle l → Sorted Qle (insert_sorted x l).
Proof.
  induction 1 as [|y l Hs IH Hhd]; simpl.
  - repeat constructor.
  - destruct (Qle_bool x y) eqn:E.
    + constructor; [constructor; assumption|constructor; apply Qle_bool_iff; exact E].
    + assert (Hyx : (y <= x)%Q).
      { apply Qlt_le_weak, Qnot_le_lt. intros Hle. apply Qle_bool_iff in Hle. congruence. }
      constructor; [exact IH|].
      destruct l as [|z l']; simpl; [by constructor|].
      destruct (Qle_bool x z); constructor; [exact Hyx|by inversion Hhd].
Qed.

Lemma sorted_q_sorted (l : list Q) : Sorted Qle (sorted_q l).
Proof. induction l; simpl; [constructor|by apply insert_sorted_sorted]. Qed.

Lemma insert_sorted_perm (x : Q) (l : list Q) : insert_sorted x l ≡ₚ x :: l.
Proof.
  induction l as [|y l IH]; simpl; [done|].
  destruct (Qle_bool x y); [done|].
  rewrite IH. by constructor.
Qed.

Lemma sorted_q_perm (l : list Q) : l ≡ₚ sorted_q l.
Proof.
  induction l as [|x l IH]; simpl; [done|].
  rewrite insert_sorted_perm. by constructor.
Qed.

Lemma p95_index_lt (n : nat) : 1 ≤ n → p95_index n < n.
Proof. intros Hn. unfold p95_index. apply Nat.Div0.div_lt_upper_bound. lia. Qed.

(** ** C3 *)

(** C3: after a run over [n >= 1] test cases, [p95_latency_ms] is the
    single latency when [n = 1], and otherwise the element at 0-based
    index [floor(0.95 n)] of the latencies sorted ascending (the index
    is always in range); for [[10; 20; 30; 40; 50]] it is [50]. *)
Theorem p95_latency_nearest_rank (k : option nat) (w w' : World)
    (summary : EvalSummary.t) :
  run_evaluation k w = (Ok summary, w') →
  let latencies := map EvalResult.latency_ms (ev_results (self w')) in
  let n := length latencies in
  n = length (ev_test_cases (self w))
  ∧ 1 ≤ n
  ∧ (n = 1 → latencies = [EvalSummary.p95_latency_ms summary])
  ∧ (1 < n →
       p95_index n = Nat.div (95 * n) 100
       ∧ p95_index n < n
       ∧ nth_error (sorted_q latencies) (p95_index n)
           = Some (EvalSummary.p95_latency_ms summary))
  ∧ Sorted Qle (sorted_q latencies)
  ∧ latencies ≡ₚ sorted_q latencies
  ∧ (p95_index 5 = 4 ∧ p95_of [10; 20; 30; 40; 50]%Q 5 = Ok 50%Q).
Proof.
  intros H.
  apply run_evaluation_ok in H as (Hne & _ & _ & _ & Hlen & _ & p95 & ts & Hp & ->).
  cbn zeta. rewrite length_map.
  assert (Hn : 1 ≤ length (ev_results (self w'))).
  { rewrite Hlen. destruct (ev_test_cases (self w)); [done|simpl; lia]. }
  split; [exact Hlen|split; [exact Hn|split; [|split; [|split; [|split]]]]].
  - intros H1. unfold p95_of in Hp.
    rewrite H1 in Hp. simpl in Hp.
    destruct (map EvalResult.latency_ms (ev_results (self w'))) as [|v [|v' l]] eqn:El.
    + discriminate.
    + simpl in Hp. inversion Hp. reflexivity.
    + apply (f_equal length) in El. rewrite length_map in El. simpl in El. lia.
  - intros H1. split; [reflexivity|split; [by apply p95_index_lt|]].
    unfold p95_of in Hp.
    destruct (Nat.ltb_spec 1 (length (ev_results (self w')))) as [_|]; [|lia].
    simpl. destruct (nth_error _ _); [by inversion Hp|discriminate].
  - apply sorted_q_sorted.
  - apply sorted_q_perm.
  - split; [reflexivity|vm_compute; reflexivity].
Qed.

Lemma p95_latency_nearest_rank_witness :
  run_evaluation None world_p95
    = (Ok (summary_of (run_evaluation None world_p95)),
       snd (run_evaluation None world_p95))
  ∧ map EvalResult.latency_ms (ev_results (self (snd (run_evaluation None world_p95))))
      = [50; 40; 30; 20; 10]%Q
  ∧ nth_error (sorted_q [50; 40; 30; 20; 10]%Q) 4
      = Some (EvalSummary.p95_latency_ms (summary_of (run_evaluation None world_p95)))
  ∧ EvalSummary.p95_latency_ms (summary_of (run_evaluation None world_p95)) = 50%Q.
Proof.
  assert (Hrun : run_evaluation None world_p95
    = (Ok (summary_of (run_evaluation None world_p95)),
       snd (run_evaluation None world_p95))) by (vm_compute; reflexivity).
  assert (Hlat : map EvalResult.latency_ms
                   (ev_results (self (snd (run_evaluation None world_p95))))
                 = [50; 40; 30; 20; 10]%Q) by (vm_compute; reflexivity).
  pose proof (p95_latency_nearest_rank None world_p95 _ _ Hrun) as (_ & _ & _ & Hgt & _).
  cbv zeta in Hgt. rewrite Hlat in Hgt. destruct (Hgt ltac:(simpl; lia)) as (_ & _ & Hnth).
  split; [exact Hrun|split; [exact Hlat|split]].
  - exact Hnth.
  - vm_compute. reflexivity.
Defined.

(** ** Sums *)

Lemma fold_left_Qplus (l : list Q) (a : Q) :
  (fold_left Qplus l a == a + fold_right Qplus 0 l)%Q.
Proof.
  revert a. induction l as [|x l IH]; intros a; simpl.
  - ring.
  - rewrite IH. ring.
Qed.

Lemma py_sum_fold_right (l : list Q) : (py_sum l == fold_right Qplus 0 l)%Q.
Proof. unfold py_sum. rewrite fold_left_Qplus. ring. Qed.

Lemma Q_of_nat_succ (n : nat) : (Q_of_nat (S n) == 1 + Q_of_nat n)%Q.
Proof.
  unfold Q_of_nat. rewrite Nat2Z.inj_succ, <- Z.add_1_l, inject_Z_plus. reflexivity.
Qed.

Lemma py_sum_hits (rs : list EvalResult.t) :
  py_sum (map (fun r => hit_as_int (EvalResult.hit r)) rs)
    == Q_of_nat (length (List.filter EvalResult.hit rs)).
Proof.
  rewrite py_sum_fold_right. induction rs as [|r rs IH]; [reflexivity|].
  cbn [map fold_right List.filter]. rewrite IH. unfold hit_as_int.
  destruct (EvalResult.hit r); cbn [length].
  - rewrite Q_of_nat_succ. reflexivity.
  - ring.
Qed.

(** ** C8 *)

(** C8: after a run over [n >= 1] test cases, [num_queries = n] and the
    summary's [precision_at_k], [recall_at_k], [mrr], [hit_rate] and
    [avg_latency_ms] are the arithmetic means over the [n] per-query
    results of precision, recall, reciprocal rank, hit (1 for true, 0 for
    false) and latency. *)
Theorem summary_arithmetic_means (k : option nat) (w w' : World)
    (summary : EvalSummary.t) :
  run_evaluation k w = (Ok summary, w') →
  let rs := ev_results (self w') in
  let n := Q_of_nat (length rs) in
  EvalSummary.num_queries summary = length (ev_test_cases (self w))
  ∧ length rs = length (ev_test_cases (self w))
  ∧ 1 ≤ length rs
  ∧ (EvalSummary.precision_at_k summary
      == fold_right Qplus 0 (map EvalResult.precision_at_k rs) / n)%Q
  ∧ (EvalSummary.recall_at_k summary
      == fold_right Qplus 0 (map EvalResult.recall_at_k rs) / n)%Q
  ∧ (EvalSummary.mrr summary
      == fold_right Qplus 0 (map EvalResult.reciprocal_rank rs) / n)%Q
  ∧ (EvalSummary.hit_rate summary
      == Q_of_nat (length (List.filter EvalResult.hit rs)) / n)%Q
  ∧ (EvalSummary.avg_latency_ms summary
      == fold_right Qplus 0 (map EvalResult.latency_ms rs) / n)%Q.
Proof.
  intros H.
  apply run_evaluation_ok in H as (Hne & _ & _ & _ & Hlen & _ & p95 & ts & _ & ->).
  cbn zeta. simpl EvalSummary.num_queries.
  assert (Hn : 1 ≤ length (ev_results (self w'))).
  { rewrite Hlen. destruct (ev_test_cases (self w)); [done|simpl; lia]. }
  split; [exact Hlen|split; [exact Hlen|split; [exact Hn|]]].
  cbn [EvalSummary.precision_at_k EvalSummary.recall_at_k EvalSummary.mrr
       EvalSummary.hit_rate EvalSummary.avg_latency_ms].
  rewrite py_sum_hits, !py_sum_fold_right.
  repeat split; reflexivity.
Qed.

Lemma summary_arithmetic_means_witness :
  run_evaluation None world_hit_miss
    = (Ok (summary_of (run_evaluation None world_hit_miss)),
       snd (run_evaluation None world_hit_miss))
  ∧ map EvalResult.hit (ev_results (self (snd (run_evaluation None world_hit_miss))))
      = [true; false]
  ∧ map EvalResult.precision_at_k
      (ev_results (self (snd (run_evaluation None world_hit_miss)))) = [1; 0]%Q
  ∧ EvalSummary.hit_rate (summary_of (run_evaluation None world_hit_miss)) == 1 # 2
  ∧ EvalSummary.precision_at_k (summary_of (run_evaluation None world_hit_miss)) == 1 # 2.
Proof.
  assert (Hrun : run_evaluation None world_hit_miss
    = (Ok (summary_of (run_evaluation None world_hit_miss)),
       snd (run_evaluation None world_hit_miss))) by (vm_compute; reflexivity).
  pose proof (summary_arithmetic_means None world_hit_miss _ _ Hrun)
    as (_ & _ & _ & Hp & _ & _ & Hh & _).
  split; [exact Hrun|split; [vm_compute; reflexivity|split; [vm_compute; reflexivity|split]]].
  - rewrite Hh. vm_compute. reflexivity.
  - rewrite Hp. vm_compute. reflexivity.
Defined.

(** ** C6 *)

(** C6: [run()] with no registered test case raises the configuration
    error ([ValueError]) and leaves the world untouched, so no summary
    with [num_queries = 0] is ever returned; [export()] with no stored
    result raises it too. *)
Theorem run_and_export_refuse_invalid_state :
  (∀ (k : option nat) (w : World), ev_test_cases (self w) = [] →
     run_evaluation k w
       = (Err (ValueError
            "No test cases added. Use add_test_case() or load_test_cases() first."), w))
  ∧ (∀ (k : option nat) (w w' : World) (summary : EvalSummary.t),
       run_evaluation k w = (Ok summary, w') → 1 ≤ EvalSummary.num_queries summary)
  ∧ (∀ (filepath : string) (w : World), ev_results (self w) = [] →
       export_results filepath w
         = (Err (ValueError "No results to export. Run evaluation first."), w)).
Proof.
  split; [|split].
  - intros k w H. unfold run_evaluation, mbind, M_bind, get_self.
    cbn -[run_cases]. rewrite H. reflexivity.
  - intros k w w' summary H.
    apply run_evaluation_ok in H as (Hne & _ & _ & _ & Hlen & _ & p95 & ts & _ & ->).
    simpl. rewrite Hlen. destruct (ev_test_cases (self w)); [done|simpl; lia].
  - intros filepath w H. unfold export_results, mbind, M_bind, get_self.
    cbn. rewrite H. reflexivity.
Qed.

Lemma run_and_export_refuse_invalid_state_witness :
  run_evaluation None (world_of (__init__ retriever_syllabus 5))
    = (Err (ValueError
         "No test cases added. Use add_test_case() or load_test_cases() first."),
       world_of (__init__ retriever_syllabus 5))
  ∧ export_results "results.json" world_one_case
    = (Err (ValueError "No results to export. Run evaluation first."), world_one_case).
Proof.
  destruct run_and_export_refuse_invalid_state as (Hrun & _ & Hexp).
  split; [apply Hrun | apply Hexp]; reflexivity.
Defined.

(** ** C9 *)

(** C9: [evaluate_single] leaves the evaluator's stored state (test
    cases, results, default [k], retriever) unchanged; it returns an
    [EvalResult] whenever the retriever answers, and propagates the
    retriever's exception otherwise. *)
Theorem evaluate_single_no_side_effect (query : string) (expected_sources : list string)
    (course_id : option string) (k : option nat) (w : World) :
  let '(outcome, w') := evaluate_single query expected_sources course_id k w in
  self w' = self w
  ∧ ev_test_cases (self w') = ev_test_cases (self w)
  ∧ ev_results (self w') = ev_results (self w)
  ∧ ev_k (self w') = ev_k (self w)
  ∧ match ev_retriever (self w) (ticks w) query course_id (k_or k (ev_k (self w))) with
    | Ok _ => ∃ r, outcome = Ok r
    | Err e => outcome = Err e
    end.
Proof.
  unfold evaluate_single. unfold_M. simpl.
  destruct (ev_retriever (self w) _ _ _ _) as [[documents latency_ms]|e];
    simpl; repeat split; eauto.
Qed.

(** ** C4 *)

(** C4 (code bug): [evaluate_single] with [k = 0] should give precision
    exactly [0.0] ([_calculate_precision_at_k] guards [k == 0], and the
    docstring names [self.k] as the default only for a missing [k]), but
    [k = k or self.k] replaces [k = 0] by the default [k = 5]: a relevant
    first document then gives precision [1/5], not [0]. *)
Lemma evaluate_single_k0_precision_nonzero :
  ∃ r, fst (evaluate_single "What is the grading policy?" ["syllabus.pdf"] None (Some 0)
              (world_of (__init__ retriever_syllabus 5)))%string = Ok r
       ∧ ¬ (EvalResult.precision_at_k r == 0)%Q.
Proof.
  eexists. split; [vm_compute; reflexivity|]. vm_compute. discriminate.
Qed.

(** ** Irrelevant identifiers are interchangeable *)

Section Interchangeable.
Variable expected : list string.

(** Two identifiers at the same rank agree, or neither is expected. *)
Let same_or_irrelevant (a b : string) : Prop := a = b ∨ ((a ∉ expected) ∧ (b ∉ expected)).

Lemma intersection_interchangeable (l1 l2 : list string) :
  Forall2 same_or_irrelevant l1 l2 →
  py_set l1 ∩ py_set expected = py_set l2 ∩ py_set expected.
Proof.
  unfold py_set. induction 1 as [|a b l1 l2 Hab _ IH]; [reflexivity|].
  rewrite !list_to_set_cons.
  destruct Hab as [->|[Ha Hb]]; set_solver.
Qed.

Lemma relevant_retrieved_count_interchangeable (l1 l2 : list string) (k : nat) :
  Forall2 same_or_irrelevant l1 l2 →
  relevant_retrieved_count l1 expected k = relevant_retrieved_count l2 expected k.
Proof.
  intros H. unfold relevant_retrieved_count.
  rewrite (intersection_interchangeable (take k l1) (take k l2)); [reflexivity|].
  by apply Forall2_take.
Qed.

Lemma reciprocal_rank_from_interchangeable (i : nat) (l1 l2 : list string) :
  Forall2 same_or_irrelevant l1 l2 →
  reciprocal_rank_from i l1 expected = reciprocal_rank_from i l2 expected.
Proof.
  intros H. revert i. induction H as [|a b l1 l2 Hab _ IH]; intros i; [reflexivity|].
  simpl. destruct Hab as [->|[Ha Hb]].
  - by rewrite IH.
  - rewrite !bool_decide_false by assumption. apply IH.
Qed.

Lemma hit_at_k_interchangeable (l1 l2 : list string) (k : nat) :
  Forall2 same_or_irrelevant l1 l2 →
  hit_at_k l1 expected k = hit_at_k l2 expected k.
Proof.
  intros H. unfold hit_at_k. apply (Forall2_take _ _ _ k) in H.
  induction H as [|a b l1' l2' Hab _ IH]; [reflexivity|].
  simpl. destruct Hab as [->|[Ha Hb]].
  - by rewrite IH.
  - rewrite !bool_decide_false by assumption. exact IH.
Qed.

Lemma extract_sources_interchangeable (documents : list Document) (other : string) :
  "Unknown"%string ∉ expected → other ∉ expected →
  Forall2 same_or_irrelevant (extract_sources documents)
    (map (fun doc => default other (metadata doc !! "source_file"%string)) documents).
Proof.
  intros Hu Ho. induction documents as [|d ds IH]; simpl; constructor; [|exact IH].
  unfold source_of. destruct (metadata d !! "source_file"%string); simpl.
  - by left.
  - by right.
Qed.

End Interchangeable.

(** ** C5 *)

(** C5 fails as stated: the sentinel is the ordinary identifier
    ["Unknown"], which matches an expected source named ["Unknown"]; a
    document without metadata is then a hit. *)
Lemma unknown_sentinel_counterexample :
  ∃ r, fst (evaluate_single "What is the grading policy?" ["Unknown"] None None
              (world_of (__init__ retriever_unknown 5)))%string = Ok r
       ∧ EvalResult.retrieved_sources r = ["Unknown"; "notes.pdf"]%string
       ∧ EvalResult.hit r = true
       ∧ EvalResult.reciprocal_rank r = 1%Q.
Proof. eexists. split; [vm_compute; reflexivity|]. vm_compute. auto. Qed.

(** C5 (amended): a document without [source_file] metadata is mapped to
    ["Unknown"]; when ["Unknown"] is not an expected source, such a
    document counts as irrelevant: replacing its identifier by any other
    identifier outside [expected_sources] changes none of precision,
    recall, reciprocal rank and hit. *)
Theorem unknown_sentinel_irrelevant (documents : list Document)
    (expected_sources : list string) (k : nat) (other : string)
    (Hunknown : "Unknown"%string ∉ expected_sources)
    (Hother : other ∉ expected_sources) :
  let with_sentinel := extract_sources documents in
  let with_other :=
    map (fun doc => default other (metadata doc !! "source_file"%string)) documents in
  (∀ doc, metadata doc !! "source_file"%string = None → source_of doc = "Unknown"%string)
  ∧ _calculate_precision_at_k with_sentinel expected_sources k
    = _calculate_precision_at_k with_other expected_sources k
  ∧ _calculate_recall_at_k with_sentinel expected_sources k
    = _calculate_recall_at_k with_other expected_sources k
  ∧ _calculate_reciprocal_rank with_sentinel expected_sources
    = _calculate_reciprocal_rank with_other expected_sources
  ∧ hit_at_k with_sentinel expected_sources k = hit_at_k with_other expected_sources k.
Proof.
  pose proof (extract_sources_interchangeable expected_sources documents other
                Hunknown Hother) as H.
  cbv zeta. split; [|split; [|split; [|split]]].
  - intros doc Hd. unfold source_of. by rewrite Hd.
  - unfold _calculate_precision_at_k.
    by rewrite (relevant_retrieved_count_interchangeable _ _ _ k H).
  - unfold _calculate_recall_at_k.
    by rewrite (relevant_retrieved_count_interchangeable _ _ _ k H).
  - unfold _calculate_reciprocal_rank. by apply reciprocal_rank_from_interchangeable.
  - by apply hit_at_k_interchangeable.
Qed.

Lemma unknown_sentinel_irrelevant_witness :
  _calculate_precision_at_k (extract_sources [doc_no_metadata; doc_from "syllabus.pdf"])
    ["syllabus.pdf"] 2
  = _calculate_precision_at_k
      (map (fun doc => default "notes.pdf" (metadata doc !! "source_file"))
         [doc_no_metadata; doc_from "syllabus.pdf"]) ["syllabus.pdf"] 2%string.
Proof.
  apply (unknown_sentinel_irrelevant [doc_no_metadata; doc_from "syllabus.pdf"]%string
           ["syllabus.pdf"]%string 2 "notes.pdf"%string).
  - intros H. apply list_elem_of_singleton in H. discriminate.
  - intros H. apply list_elem_of_singleton in H. discriminate.
Defined.

(** ** Test-case files *)

Lemma strs_of_jsons_map_JStr (l : list string) : strs_of_jsons (map JStr l) = Ok l.
Proof. induction l as [|s l IH]; simpl; [reflexivity|]. by rewrite IH. Qed.

Lemma case_args_json_of_test_case (c : TestCase) : case_args (json_of_test_case c) = Ok c.
Proof.
  destruct c as [q es cid]. unfold case_args, json_of_test_case. simpl.
  rewrite strs_of_jsons_map_JStr. destruct cid; reflexivity.
Qed.

Lemma load_cases_json (tcs : list TestCase) (w : World) :
  load_cases (map json_of_test_case tcs) w
  = (Ok tt, set_self (set_test_cases (ev_test_cases (self w) ++ tcs) (self w)) w).
Proof.
  revert w. induction tcs as [|c tcs IH]; intros w.
  - destruct w as [[r k tc rs] f t clk]. simpl. unfold mret, M_ret.
    rewrite app_nil_r. reflexivity.
  - cbn [map load_cases]. unfold mbind, M_bind, lift_exc.
    rewrite case_args_json_of_test_case. unfold add_test_case, modify_self.
    rewrite IH. destruct w as [[r k tc rs] f t clk], c. simpl.
    rewrite <- app_assoc. reflexivity.
Qed.

(** ** C7 *)

(** C7: saving the test cases [tcs] of an evaluator with
    [save_test_cases] and loading the file into a fresh evaluator with
    [load_test_cases] reproduces [tcs] exactly (query, expected sources
    in order, course filter, case order) and returns their number. *)
Theorem save_load_roundtrip (tcs : list TestCase) (saver : RetrievalEvaluator)
    (retriever : Retriever) (k : nat) (files : gmap string json) (t : nat)
    (clk : nat -> string) (filepath : string) :
  let saved := snd (save_test_cases filepath
                      (mkWorld (set_test_cases tcs saver) files t clk)) in
  load_test_cases filepath (set_self (__init__ retriever k) saved)
  = (Ok (length tcs), set_self (set_test_cases tcs (__init__ retriever k)) saved).
Proof.
  cbv zeta. unfold load_test_cases, save_test_cases.
  unfold mbind, M_bind, get_self, write_json, read_json, lift_exc. simpl.
  rewrite lookup_insert_eq. simpl.
  rewrite load_cases_json. unfold mret, M_ret. rewrite length_map. reflexivity.
Qed.

Lemma save_load_roundtrip_witness :
  load_test_cases "cases.json"
    (set_self (__init__ retriever_syllabus 5)
       (snd (save_test_cases "cases.json" world_p95)))
  = (Ok 5, set_self (set_test_cases (ev_test_cases (self world_p95))
                        (__init__ retriever_syllabus 5))
             (snd (save_test_cases "cases.json" world_p95)))%string.
Proof.
  exact (save_load_roundtrip (ev_test_cases (self world_p95))
           (__init__ retriever_slowing_down 5) retriever_syllabus 5 ∅ 0 sample_clock
           "cases.json"%string).
Defined.

(** ** The default [k] is never written *)

Create HintDb frame.

Lemma preserves_k_bind {A B} (m : M A) (f : A → M B) :
  preserves_k m → (∀ a, preserves_k (f a)) → preserves_k (mbind f m).
Proof.
  intros Hm Hf w. unfold mbind, M_bind. specialize (Hm w).
  destruct (m w) as [[a|e] w'] eqn:E; simpl in *; [rewrite Hf|]; exact Hm.
Qed.

Lemma preserves_k_ret {A} (a : A) : preserves_k (mret a).
Proof. intros w. reflexivity. Qed.

Lemma preserves_k_raise {A} (e : PyError) : preserves_k (raise (A:=A) e).
Proof. intros w. reflexivity. Qed.

Lemma preserves_k_get_self : preserves_k get_self.
Proof. intros w. reflexivity. Qed.

Lemma preserves_k_lift_exc {A} (x : Exc A) : preserves_k (lift_exc x).
Proof. intros w. reflexivity. Qed.

Lemma preserves_k_write_json (filepath : string) (v : json) :
  preserves_k (write_json filepath v).
Proof. intros w. reflexivity. Qed.

Lemma preserves_k_read_json (filepath : string) : preserves_k (read_json filepath).
Proof. intros w. unfold read_json. destruct (fs w !! filepath); reflexivity. Qed.

Lemma preserves_k_now : preserves_k now_isoformat.
Proof. intros w. reflexivity. Qed.

Lemma preserves_k_call_retriever (r : Retriever) (q : string) (c : option string) (k : nat) :
  preserves_k (call_retriever r q c k).
Proof. intros w. reflexivity. Qed.

Lemma preserves_k_set_results (rs : list EvalResult.t) :
  preserves_k (modify_self (set_results rs)).
Proof. intros w. reflexivity. Qed.

Lemma preserves_k_append_result (r : EvalResult.t) :
  preserves_k (modify_self (fun s => set_results (ev_results s ++ [r]) s)).
Proof. intros w. reflexivity. Qed.

Lemma preserves_k_add_test_case (q : string) (es : list string) (c : option string) :
  preserves_k (add_test_case q es c).
Proof. intros w. reflexivity. Qed.

#[local] Hint Resolve preserves_k_bind preserves_k_ret preserves_k_raise
  preserves_k_get_self preserves_k_lift_exc preserves_k_write_json
  preserves_k_read_json preserves_k_now preserves_k_call_retriever
  preserves_k_set_results preserves_k_append_result preserves_k_add_test_case : frame.

Lemma preserves_k_evaluate_single (q : string) (es : list string) (c : option string)
    (k : option nat) : preserves_k (evaluate_single q es c k).
Proof.
  unfold evaluate_single. apply preserves_k_bind; [auto with frame|intros s].
  apply preserves_k_bind; [auto with frame|intros [documents latency_ms]].
  auto with frame.
Qed.
#[local] Hint Resolve preserves_k_evaluate_single : frame.

Lemma preserves_k_run_cases (k : nat) (cases : list TestCase) :
  preserves_k (run_cases k cases).
Proof. induction cases as [|case rest IH]; simpl; eauto 10 with frame. Qed.
#[local] Hint Resolve preserves_k_run_cases : frame.

Lemma preserves_k_run_evaluation (k : option nat) : preserves_k (run_evaluation k).
Proof.
  unfold run_evaluation. apply preserves_k_bind; [auto with frame|intros s].
  destruct (ev_test_cases s); [auto with frame|].
  apply preserves_k_bind; [auto with frame|intros _u].
  apply preserves_k_bind; [auto with frame|intros latencies].
  apply preserves_k_bind; [auto with frame|intros s2].
  destruct (Nat.eqb _ 0); eauto 10 with frame.
Qed.

Lemma preserves_k_load_cases (cases : list json) : preserves_k (load_cases cases).
Proof. induction cases as [|case rest IH]; simpl; eauto 10 with frame. Qed.
#[local] Hint Resolve preserves_k_load_cases : frame.

Lemma preserves_k_load_test_cases (filepath : string) :
  preserves_k (load_test_cases filepath).
Proof. unfold load_test_cases. eauto 10 with frame. Qed.

Lemma preserves_k_save_test_cases (filepath : string) :
  preserves_k (save_test_cases filepath).
Proof. unfold save_test_cases. eauto with frame. Qed.

Lemma preserves_k_export_results (filepath : string) :
  preserves_k (export_results filepath).
Proof.
  unfold export_results. apply preserves_k_bind; [auto with frame|intros s].
  destruct (ev_results s); eauto with frame.
Qed.

Lemma exec_calls_keep_k (calls : list Call) (w : World) :
  ev_k (self (exec_calls calls w)) = ev_k (self w).
Proof.
  revert w. induction calls as [|c calls IH]; intros w; simpl; [reflexivity|].
  rewrite IH. revert w.
  change (preserves_k (exec_call c)).
  destruct c; cbn [exec_call].
  - apply preserves_k_add_test_case.
  - apply preserves_k_bind; [apply preserves_k_load_test_cases|auto with frame].
  - apply preserves_k_save_test_cases.
  - apply preserves_k_bind; [apply preserves_k_evaluate_single|auto with frame].
  - apply preserves_k_bind; [apply preserves_k_run_evaluation|auto with frame].
  - apply preserves_k_export_results.
Qed.

Lemma export_results_ok (filepath : string) (w w' : World) :
  export_results filepath w = (Ok tt, w') →
  ∃ v, fs w' !! filepath = Some v
       ∧ py_get v "k" = Some (JInt (Z.of_nat (ev_k (self w)))).
Proof.
  unfold export_results, mbind, M_bind, get_self. cbn.
  destruct (ev_results (self w)) as [|r rs]; [discriminate|].
  unfold now_isoformat, write_json. cbn. intros H. inversion H; subst. clear H.
  eexists. split; [cbn; apply lookup_insert_eq|reflexivity].
Qed.

(** ** C10 *)




(** ** Relations between the per-query metrics *)

Lemma relevant_retrieved_count_pos (retrieved relevant : list string) (k : nat) :
  0 < relevant_retrieved_count retrieved relevant k ↔ hit_at_k retrieved relevant k = true.
Proof.
  rewrite hit_at_k_spec. unfold relevant_retrieved_count, py_set. split.
  - intros Hpos.
    destruct (set_choose_or_empty (list_to_set (take k retrieved) ∩ list_to_set relevant
                                    : gset string)) as [[x Hx]|Hempty].
    + exists x. set_solver.
    + apply size_empty_iff in Hempty. lia.
  - intros [x [Hx Hrel]].
    destruct (Nat.eq_dec (size (list_to_set (take k retrieved) ∩ list_to_set relevant
                                  : gset string)) 0) as [H0|H0]; [|lia].
    apply size_empty_iff in H0. set_solver.
Qed.

Lemma Qdiv_nat_pos_iff (c d : nat) :
  0 < d → (0 < Q_of_nat c / Q_of_nat d)%Q ↔ 0 < c.
Proof.
  intros Hd. split.
  - intros H. destruct c as [|c]; [|lia].
    exfalso. change (Q_of_nat 0) with 0%Q in H. unfold Qdiv in H.
    rewrite Qmult_0_l in H. discriminate.
  - intros Hc. apply Qlt_shift_div_l; [apply Q_of_nat_pos; lia|].
    rewrite Qmult_0_l. apply Q_of_nat_pos. exact Hc.
Qed.

Lemma Q_of_nat_inj (a b : nat) : (Q_of_nat a == Q_of_nat b)%Q → a = b.
Proof. unfold Q_of_nat. intros H. rewrite inject_Z_injective in H. lia. Qed.

Lemma Q_of_nat_neq0 (d : nat) : 0 < d → ¬ (Q_of_nat d == 0)%Q.
Proof.
  intros Hd H. change 0%Q with (Q_of_nat 0) in H. apply Q_of_nat_inj in H. lia.
Qed.

Lemma Qdiv_nat_one_iff (c d : nat) :
  0 < d → (Q_of_nat c / Q_of_nat d == 1)%Q ↔ c = d.
Proof.
  intros Hd. split.
  - intros H. apply Q_of_nat_inj.
    rewrite <- (Qmult_div_r (Q_of_nat c) (Q_of_nat d)) by (apply Q_of_nat_neq0; exact Hd).
    rewrite H. ring.
  - intros ->. unfold Qdiv. apply Qmult_inv_r, Q_of_nat_neq0. exact Hd.
Qed.

Lemma size_list_to_set_NoDup (l : list string) :
  size (list_to_set l : gset string) = length l → NoDup l.
Proof.
  induction l as [|x l IH]; intros H; [constructor|].
  rewrite list_to_set_cons in H. cbn [length] in H.
  destruct (decide (x ∈ l)) as [Hin|Hnin].
  - exfalso.
    assert (Heq : ({[x]} ∪ list_to_set l : gset string) = list_to_set l).
    { apply set_eq. intros y. rewrite elem_of_union, elem_of_singleton.
      split; [intros [->|Hy]; [apply elem_of_list_to_set; exact Hin|exact Hy]|by right]. }
    rewrite Heq in H. pose proof (size_py_set_le l) as Hle. unfold py_set in Hle. lia.
  - rewrite size_union in H by set_solver. rewrite size_singleton in H.
    constructor; [exact Hnin|]. apply IH. lia.
Qed.

Lemma Qinv_nat_le (a b : nat) :
  0 < b → b ≤ a → (1 / Q_of_nat a <= 1 / Q_of_nat b)%Q.
Proof.
  intros Hb Hba. assert (Ha : 0 < a) by lia.
  apply Qle_shift_div_l; [apply Q_of_nat_pos; exact Hb|].
  assert (Heq : (1 / Q_of_nat a * Q_of_nat b == Q_of_nat b / Q_of_nat a)%Q)
    by (field; apply Q_of_nat_neq0; exact Ha).
  rewrite Heq.
  apply Qle_shift_div_r; [apply Q_of_nat_pos; exact Ha|].
  rewrite Qmult_1_l. apply Q_of_nat_le. exact Hba.
Qed.

Lemma reciprocal_rank_from_in_unit (i : nat) (retrieved relevant : list string) :
  1 ≤ i → (0 <= reciprocal_rank_from i retrieved relevant <= 1)%Q.
Proof.
  revert i. induction retrieved as [|d rest IH]; intros i Hi; simpl.
  - split; discriminate.
  - case_bool_decide; [|apply IH; lia].
    change 1%Q with (Q_of_nat 1) at 1. apply Qdiv_nat_in_unit; lia.
Qed.

Lemma reciprocal_rank_from_hit (i : nat) (retrieved relevant : list string) (k : nat) :
  1 ≤ i → hit_at_k retrieved relevant k = true →
  (1 / Q_of_nat (i - 1 + k) <= reciprocal_rank_from i retrieved relevant)%Q.
Proof.
  revert i k. induction retrieved as [|d rest IH]; intros i k Hi Hhit.
  - apply hit_at_k_spec in Hhit as [x [Hx _]]. rewrite take_nil in Hx. inversion Hx.
  - destruct k as [|k].
    { apply hit_at_k_spec in Hhit as [x [Hx _]]. inversion Hx. }
    simpl. case_bool_decide as Hd.
    + apply Qinv_nat_le; lia.
    + replace (i - 1 + S k) with (S i - 1 + k) by lia. apply IH; [lia|].
      apply hit_at_k_spec in Hhit as [x [Hx Hrel]]. apply hit_at_k_spec.
      exists x. split; [|exact Hrel]. simpl in Hx.
      apply elem_of_cons in Hx as [->|Hx]; [contradiction|exact Hx].
Qed.

(** The precision is positive exactly when the query is a hit; so is the
    recall when some source is expected. *)
Theorem precision_recall_positive_iff_hit (retrieved expected : list string) (k : nat)
    (Hk : 1 ≤ k) :
  ((0 < _calculate_precision_at_k retrieved expected k)%Q
     ↔ hit_at_k retrieved expected k = true)
  ∧ (expected ≠ [] →
       (0 < _calculate_recall_at_k retrieved expected k)%Q
         ↔ hit_at_k retrieved expected k = true).
Proof.
  rewrite <- relevant_retrieved_count_pos. split.
  - unfold _calculate_precision_at_k. destruct (Nat.eqb_spec k 0); [lia|].
    apply Qdiv_nat_pos_iff. lia.
  - intros Hne. unfold _calculate_recall_at_k. destruct (Nat.eqb_spec (length expected) 0).
    + apply nil_length_inv in e. contradiction.
    + apply Qdiv_nat_pos_iff. lia.
Qed.

Lemma precision_recall_positive_iff_hit_witness :
  1 ≤ 2 ∧ ((0 < _calculate_precision_at_k ["notes.pdf"; "syllabus.pdf"] ["syllabus.pdf"] 2)%Q
            ↔ hit_at_k ["notes.pdf"; "syllabus.pdf"] ["syllabus.pdf"] 2 = true)%string.
Proof.
  split; [lia|].
  exact (proj1 (precision_recall_positive_iff_hit ["notes.pdf"; "syllabus.pdf"]%string
                  ["syllabus.pdf"]%string 2 ltac:(lia))).
Defined.

(** The reciprocal rank lies in [[0, 1]], and a hit within the top [k]
    guarantees at least [1 / k]. *)
Theorem reciprocal_rank_bounds (retrieved expected : list string) (k : nat) :
  (0 <= _calculate_reciprocal_rank retrieved expected <= 1)%Q
  ∧ (hit_at_k retrieved expected k = true →
       (1 / Q_of_nat k <= _calculate_reciprocal_rank retrieved expected)%Q).
Proof.
  split.
  - apply reciprocal_rank_from_in_unit. lia.
  - intros Hhit. unfold _calculate_reciprocal_rank.
    pose proof (reciprocal_rank_from_hit 1 retrieved expected k ltac:(lia) Hhit) as H.
    replace (1 - 1 + k) with k in H by lia. exact H.
Qed.

(** The recall reaches [1] exactly when some source is expected, the
    expected list has no repeated entry, and every expected source is in
    the top [k]. *)
Theorem recall_one_iff (retrieved expected : list string) (k : nat) :
  (_calculate_recall_at_k retrieved expected k == 1)%Q
  ↔ expected ≠ [] ∧ NoDup expected ∧ (∀ x, x ∈ expected → x ∈ take k retrieved).
Proof.
  unfold _calculate_recall_at_k, relevant_retrieved_count, py_set.
  destruct (Nat.eqb_spec (length expected) 0) as [H0|H0].
  - apply nil_length_inv in H0 as ->. split; [discriminate|intros [[] _]; reflexivity].
  - rewrite Qdiv_nat_one_iff by lia.
    set (T := list_to_set (take k retrieved) : gset string).
    set (E := list_to_set expected : gset string).
    pose proof (subseteq_size (T ∩ E) E ltac:(set_solver)) as Hle1.
    pose proof (size_py_set_le expected) as Hle2. unfold py_set in Hle2. fold E in Hle2.
    split.
    + intros Heq. split; [intros ->; simpl in H0; lia|split].
      * apply size_list_to_set_NoDup. fold E. lia.
      * intros x Hx.
        assert (HTE : T ∩ E = E) by (apply set_subseteq_size_eq; [set_solver|lia]).
        assert (HxE : x ∈ E) by (apply elem_of_list_to_set; exact Hx).
        rewrite <- HTE in HxE. apply elem_of_intersection in HxE as [HxT _].
        apply elem_of_list_to_set in HxT. exact HxT.
    + intros (_ & Hnd & Hall).
      pose proof (size_list_to_set (C:=gset string) expected Hnd) as Hs. fold E in Hs.
      assert (Hsub : E ⊆ T ∩ E).
      { intros x Hx. apply elem_of_intersection. split; [|exact Hx].
        apply elem_of_list_to_set, Hall.
        unfold E in Hx. apply elem_of_list_to_set in Hx. exact Hx. }
      pose proof (subseteq_size E (T ∩ E) Hsub) as Hge. lia.
Qed.

(** The precision reaches [1] exactly when the retriever returned at
    least [k] documents and the top [k] sources are pairwise distinct and
    all expected. *)
Theorem precision_one_iff (retrieved expected : list string) (k : nat) (Hk : 1 ≤ k) :
  (_calculate_precision_at_k retrieved expected k == 1)%Q
  ↔ k ≤ length retrieved ∧ NoDup (take k retrieved)
    ∧ (∀ x, x ∈ take k retrieved → x ∈ expected).
Proof.
  unfold _calculate_precision_at_k, relevant_retrieved_count, py_set.
  destruct (Nat.eqb_spec k 0) as [|_]; [lia|].
  rewrite Qdiv_nat_one_iff by lia.
  set (T := list_to_set (take k retrieved) : gset string).
  set (E := list_to_set expected : gset string).
  pose proof (subseteq_size (T ∩ E) T ltac:(set_solver)) as Hle1.
  pose proof (size_py_set_le (take k retrieved)) as Hle2. unfold py_set in Hle2. fold T in Hle2.
  rewrite length_take in Hle2.
  split.
  - intros Heq. split; [lia|split].
    + apply size_list_to_set_NoDup. fold T. rewrite length_take. lia.
    + intros x Hx.
      assert (HTE : T ∩ E = T) by (apply set_subseteq_size_eq; [set_solver|lia]).
      assert (HxT : x ∈ T) by (apply elem_of_list_to_set; exact Hx).
      rewrite <- HTE in HxT. apply elem_of_intersection in HxT as [_ HxE].
      apply elem_of_list_to_set in HxE. exact HxE.
  - intros (Hlen & Hnd & Hall).
    pose proof (size_list_to_set (C:=gset string) (take k retrieved) Hnd) as Hs.
    fold T in Hs. rewrite length_take in Hs.
    assert (Hsub : T ⊆ T ∩ E).
    { intros x Hx. apply elem_of_intersection. split; [exact Hx|].
      apply elem_of_list_to_set, Hall.
      unfold T in Hx. apply elem_of_list_to_set in Hx. exact Hx. }
    pose proof (subseteq_size T (T ∩ E) Hsub) as Hge. lia.
Qed.

Lemma precision_one_iff_witness :
  1 ≤ 2 ∧ ((_calculate_precision_at_k ["syllabus.pdf"; "syllabus.pdf"]%string
              ["syllabus.pdf"]%string 2 == 1)%Q
           ↔ 2 ≤ length ["syllabus.pdf"; "syllabus.pdf"]%string
             ∧ NoDup (take 2 ["syllabus.pdf"; "syllabus.pdf"]%string)
             ∧ (∀ x, x ∈ take 2 ["syllabus.pdf"; "syllabus.pdf"]%string
                     → x ∈ ["syllabus.pdf"]%string)).
Proof.
  split; [lia|].
  exact (precision_one_iff ["syllabus.pdf"; "syllabus.pdf"]%string
           ["syllabus.pdf"]%string 2 ltac:(lia)).
Defined.

(** ** Bounds of the summary *)

Lemma sum_le_pointwise (f g : EvalResult.t → Q) (rs : list EvalResult.t) :
  (∀ r, r ∈ rs → (f r <= g r)%Q) →
  (fold_right Qplus 0 (map f rs) <= fold_right Qplus 0 (map g rs))%Q.
Proof.
  induction rs as [|r rs IH]; intros H; simpl; [apply Qle_refl|].
  apply Qplus_le_compat.
  - apply H. by constructor.
  - apply IH. intros r' Hr'. apply H. by constructor.
Qed.

Lemma sum_nonneg (f : EvalResult.t → Q) (rs : list EvalResult.t) :
  (∀ r, r ∈ rs → (0 <= f r)%Q) → (0 <= fold_right Qplus 0 (map f rs))%Q.
Proof.
  induction rs as [|r rs IH]; intros H; simpl; [apply Qle_refl|].
  apply (Qle_trans _ (0 + 0)); [apply Qle_refl|]. apply Qplus_le_compat.
  - apply H. by constructor.
  - apply IH. intros r' Hr'. apply H. by constructor.
Qed.

Lemma sum_const_one (rs : list EvalResult.t) :
  (fold_right Qplus 0 (map (fun _ => 1) rs) == Q_of_nat (length rs))%Q.
Proof.
  induction rs as [|r rs IH]; simpl; [reflexivity|]. rewrite IH, Q_of_nat_succ. reflexivity.
Qed.

Lemma Qdiv_le_mono (a b d : Q) : (0 < d)%Q → (a <= b)%Q → (a / d <= b / d)%Q.
Proof.
  intros Hd Hab. unfold Qdiv. apply Qmult_le_compat_r; [exact Hab|].
  apply Qinv_le_0_compat, Qlt_le_weak. exact Hd.
Qed.

Lemma per_query_bounds (retrieved expected : list string) (k : nat) :
  let h := hit_as_int (hit_at_k retrieved expected k) in
  (0 <= _calculate_precision_at_k retrieved expected k <= h)%Q
  ∧ (0 <= _calculate_recall_at_k retrieved expected k <= h)%Q
  ∧ (0 <= h <= 1)%Q
  ∧ (0 <= _calculate_reciprocal_rank retrieved expected <= 1)%Q.
Proof.
  cbv zeta. pose proof (precision_in_unit retrieved expected k) as [Hp0 Hp1].
  pose proof (recall_in_unit retrieved expected k) as [Hr0 Hr1].
  pose proof (reciprocal_rank_from_in_unit 1 retrieved expected ltac:(lia)) as [Hrr0 Hrr1].
  fold (_calculate_reciprocal_rank retrieved expected) in Hrr0, Hrr1.
  destruct (hit_at_k retrieved expected k) eqn:Hh; unfold hit_as_int.
  - split; [split; assumption|split; [split; assumption|split; [split; discriminate|]]].
    split; assumption.
  - assert (Hc : relevant_retrieved_count retrieved expected k = 0).
    { destruct (relevant_retrieved_count retrieved expected k) eqn:Ec; [reflexivity|].
      assert (Hpos : 0 < relevant_retrieved_count retrieved expected k) by lia.
      apply relevant_retrieved_count_pos in Hpos. congruence. }
    unfold _calculate_precision_at_k, _calculate_recall_at_k. rewrite Hc.
    assert (Hz : ∀ x, (Q_of_nat 0 / x == 0)%Q) by (intros x; unfold Qdiv; apply Qmult_0_l).
    destruct (Nat.eqb k 0), (Nat.eqb (length expected) 0); rewrite ?Hz;
      (split; [split; apply Qle_refl|split; [split; apply Qle_refl|split; [split; discriminate|]]]);
      split; assumption.
Qed.

(** After a successful run, the summary's mean precision and mean
    recall lie between [0] and the hit rate, and the hit rate and the MRR
    lie in [[0, 1]]. Each bound compares sums term by term, so it also
    holds of Python's rounded float sums and divisions, which are
    monotone. *)
Theorem summary_bounds (k : option nat) (w w' : World) (summary : EvalSummary.t)
    (Hrun : run_evaluation k w = (Ok summary, w')) :
  (0 <= EvalSummary.precision_at_k summary <= EvalSummary.hit_rate summary)%Q
  ∧ (0 <= EvalSummary.recall_at_k summary <= EvalSummary.hit_rate summary)%Q
  ∧ (0 <= EvalSummary.hit_rate summary <= 1)%Q
  ∧ (0 <= EvalSummary.mrr summary <= 1)%Q.
Proof.
  pose proof Hrun as Hok.
  apply run_evaluation_ok in Hok as (Hne & _ & _ & _ & Hlen & Hall & p95 & ts & _ & ->).
  set (rs := ev_results (self w')) in *.
  assert (Hn : 0 < length rs).
  { rewrite Hlen. destruct (ev_test_cases (self w)); [done|simpl; lia]. }
  assert (Hnq : (0 < Q_of_nat (length rs))%Q) by (apply Q_of_nat_pos; exact Hn).
  assert (Hpt : ∀ r, r ∈ rs →
     let h := hit_as_int (EvalResult.hit r) in
     (0 <= EvalResult.precision_at_k r <= h)%Q
     ∧ (0 <= EvalResult.recall_at_k r <= h)%Q
     ∧ (0 <= h <= 1)%Q
     ∧ (0 <= EvalResult.reciprocal_rank r <= 1)%Q).
  { intros r Hr. apply list_elem_of_lookup_1 in Hr as [i Hi].
    destruct (Forall2_lookup_r _ _ _ i r Hall Hi) as [case [_ [documents [latency_ms ->]]]].
    apply per_query_bounds. }
  cbn [EvalSummary.precision_at_k EvalSummary.recall_at_k EvalSummary.mrr
       EvalSummary.hit_rate].
  rewrite !py_sum_fold_right.
  set (n := Q_of_nat (length rs)).
  assert (Hone : (fold_right Qplus 0 (map (fun _ => 1) rs) / n == 1)%Q).
  { rewrite sum_const_one. unfold n, Qdiv. apply Qmult_inv_r, Q_of_nat_neq0. exact Hn. }
  assert (Hzero : (0 / n == 0)%Q) by (unfold Qdiv; apply Qmult_0_l).
  assert (Hsum0 : ∀ f : EvalResult.t → Q, (∀ r, r ∈ rs → (0 <= f r)%Q) →
            (0 <= fold_right Qplus 0 (map f rs) / n)%Q).
  { intros f Hf. rewrite <- Hzero at 1. apply Qdiv_le_mono; [exact Hnq|].
    apply sum_nonneg. exact Hf. }
  assert (Hmono : ∀ f g : EvalResult.t → Q, (∀ r, r ∈ rs → (f r <= g r)%Q) →
            (fold_right Qplus 0 (map f rs) / n <= fold_right Qplus 0 (map g rs) / n)%Q).
  { intros f g Hfg. apply Qdiv_le_mono; [exact Hnq|]. apply sum_le_pointwise. exact Hfg. }
  split; [|split; [|split]].
  - split; [apply Hsum0; intros r Hr; apply (Hpt r Hr)|apply Hmono; intros r Hr; apply (Hpt r Hr)].
  - split; [apply Hsum0; intros r Hr; apply (Hpt r Hr)|apply Hmono; intros r Hr; apply (Hpt r Hr)].
  - split; [apply Hsum0; intros r Hr; apply (Hpt r Hr)|].
    rewrite <- Hone. apply Hmono. intros r Hr. apply (Hpt r Hr).
  - split; [apply Hsum0; intros r Hr; apply (Hpt r Hr)|].
    rewrite <- Hone. apply Hmono. intros r Hr. apply (Hpt r Hr).
Qed.

Lemma summary_bounds_witness :
  run_evaluation None world_hit_miss
    = (Ok (summary_of (run_evaluation None world_hit_miss)),
       snd (run_evaluation None world_hit_miss))
  ∧ (0 <= EvalSummary.precision_at_k (summary_of (run_evaluation None world_hit_miss))
       <= EvalSummary.hit_rate (summary_of (run_evaluation None world_hit_miss)))%Q.
Proof.
  assert (Hrun : run_evaluation None world_hit_miss
    = (Ok (summary_of (run_evaluation None world_hit_miss)),
       snd (run_evaluation None world_hit_miss))) by (vm_compute; reflexivity).
  split; [exact Hrun|].
  exact (proj1 (summary_bounds None world_hit_miss _ _ Hrun)).
Defined.

(** ** The run loop: success, failure and partial results *)

Lemma evaluate_single_total (query : string) (expected_sources : list string)
    (course_id : option string) (k : option nat) (w : World) :
  (∃ x, ev_retriever (self w) (ticks w) query course_id (k_or k (ev_k (self w))) = Ok x) →
  ∃ r, evaluate_single query expected_sources course_id k w = (Ok r, tick w)
       ∧ EvalResult.query r = query.
Proof.
  intros [[documents latency_ms] Hx]. unfold evaluate_single. unfold_M. simpl.
  rewrite Hx. eexists. split; reflexivity.
Qed.

Lemma run_cases_total (k : nat) (cases : list TestCase) (w : World) :
  (∀ t q c kk, ∃ x, ev_retriever (self w) t q c kk = Ok x) →
  ∃ latencies w', run_cases k cases w = (Ok latencies, w').
Proof.
  revert w. induction cases as [|case rest IH]; intros w Htotal.
  - do 2 eexists. reflexivity.
  - simpl. unfold mbind, M_bind.
    destruct (evaluate_single_total (case_query case) (case_expected_sources case)
                (case_course_id case) (Some k) w (Htotal _ _ _ _)) as [r [-> _]].
    unfold modify_self.
    destruct (IH (set_self (set_results (ev_results (self (tick w)) ++ [r]) (self (tick w)))
                    (tick w)) Htotal) as [lats [w' ->]].
    do 2 eexists. reflexivity.
Qed.

Lemma run_cases_fail_at (k : nat) (cases : list TestCase) (w : World) (i : nat)
    (case : TestCase) (e : PyError) :
  (∀ j c, j < i → cases !! j = Some c →
     ∃ x, ev_retriever (self w) (ticks w + j) (case_query c) (case_course_id c)
            (k_or (Some k) (ev_k (self w))) = Ok x) →
  cases !! i = Some case →
  ev_retriever (self w) (ticks w + i) (case_query case) (case_course_id case)
    (k_or (Some k) (ev_k (self w))) = Err e →
  ∃ rs w', run_cases k cases w = (Err e, w')
    ∧ self w' = set_results (ev_results (self w) ++ rs) (self w)
    ∧ length rs = i
    ∧ ∀ j r, rs !! j = Some r →
        ∃ c documents latency_ms,
          let kk := k_or (Some k) (ev_k (self w)) in
          let retrieved := extract_sources documents in
          cases !! j = Some c
          ∧ ev_retriever (self w) (ticks w + j) (case_query c) (case_course_id c) kk
            = Ok (documents, latency_ms)
          ∧ r = EvalResult.mk (case_query c) (case_expected_sources c) retrieved
                  (_calculate_precision_at_k retrieved (case_expected_sources c) kk)
                  (_calculate_recall_at_k retrieved (case_expected_sources c) kk)
                  (_calculate_reciprocal_rank retrieved (case_expected_sources c))
                  (hit_at_k retrieved (case_expected_sources c) kk)
                  latency_ms.
Proof.
  revert w i. induction cases as [|c0 rest IH]; intros w i Hpre Hi Hfail; [discriminate|].
  destruct i as [|i].
  - injection Hi as <-. rewrite Nat.add_0_r in Hfail.
    exists [], (tick w). simpl. unfold mbind, M_bind, evaluate_single. unfold_M.
    simpl in Hfail |- *. rewrite Hfail. split; [reflexivity|].
    split; [|split; [reflexivity|intros j r Hj; discriminate]].
    rewrite app_nil_r. destruct w as [[] ? ? ?]. reflexivity.
  - destruct (Hpre 0 c0 ltac:(lia) eq_refl) as [[documents latency_ms] Hx].
    rewrite Nat.add_0_r in Hx.
    set (r0 := EvalResult.mk (case_query c0) (case_expected_sources c0)
                 (extract_sources documents)
                 (_calculate_precision_at_k (extract_sources documents) (case_expected_sources c0)
                    (k_or (Some k) (ev_k (self w))))
                 (_calculate_recall_at_k (extract_sources documents) (case_expected_sources c0)
                    (k_or (Some k) (ev_k (self w))))
                 (_calculate_reciprocal_rank (extract_sources documents) (case_expected_sources c0))
                 (hit_at_k (extract_sources documents) (case_expected_sources c0)
                    (k_or (Some k) (ev_k (self w))))
                 latency_ms).
    set (w1 := set_self (set_results (ev_results (self w) ++ [r0]) (self w)) (tick w)).
    assert (Hstep : run_cases k (c0 :: rest) w
                    = (r ← run_cases k rest; mret (EvalResult.latency_ms r0 :: r)) w1).
    { simpl. unfold mbind at 1, M_bind at 1, evaluate_single. unfold get_self, call_retriever.
      unfold mbind at 1 2 3, M_bind at 1 2 3. simpl in Hx |- *. rewrite Hx. reflexivity. }
    destruct (IH w1 i) as (rs & w' & Hcases & Hself & Hlen & Hrs).
    + intros j c Hj Hc. cbn [w1 self set_self set_results ev_retriever ev_k ticks tick].
      replace (S (ticks w) + j) with (ticks w + S j) by lia.
      apply (Hpre (S j) c); [lia|exact Hc].
    + exact Hi.
    + cbn [w1 self set_self set_results ev_retriever ev_k ticks tick].
      replace (S (ticks w) + i) with (ticks w + S i) by lia. exact Hfail.
    + exists (r0 :: rs), w'. rewrite Hstep. unfold mbind at 1, M_bind at 1. rewrite Hcases.
      split; [reflexivity|]. split; [|split; [simpl; lia|]].
      * rewrite Hself. cbn [w1 self set_self set_results ev_results].
        rewrite <- app_assoc. reflexivity.
      * intros [|j] r Hj.
        -- injection Hj as <-. exists c0, documents, latency_ms.
           rewrite Nat.add_0_r. split; [reflexivity|split; [exact Hx|reflexivity]].
        -- destruct (Hrs j r Hj) as (c & ds & lat & Hc & Hr & ->).
           cbn [w1 self set_self set_results ev_retriever ev_k ticks tick] in *.
           exists c, ds, lat. replace (ticks w + S j) with (S (ticks w) + j) by lia.
           split; [exact Hc|split; [exact Hr|reflexivity]].
Qed.

Lemma p95_of_ok (latencies : list Q) (n : nat) :
  length latencies = n → 1 ≤ n → ∃ v, p95_of latencies n = Ok v.
Proof.
  intros Hlen Hn. unfold p95_of.
  destruct (Nat.ltb_spec 1 n).
  - destruct (nth_error (sorted_q latencies) (p95_index n)) as [v|] eqn:E; [by exists v|].
    apply nth_error_None in E.
    rewrite <- (Permutation_length (sorted_q_perm latencies)) in E.
    pose proof (p95_index_lt n Hn). lia.
  - destruct latencies as [|x l]; [simpl in Hlen; lia|]. by exists x.
Qed.

Lemma run_evaluation_total (k : option nat) (w : World)
    (Htotal : ∀ t q c kk, ∃ x, ev_retriever (self w) t q c kk = Ok x)
    (Hne : ev_test_cases (self w) ≠ []) :
  ∃ summary w', run_evaluation k w = (Ok summary, w')
                ∧ EvalSummary.num_queries summary = length (ev_test_cases (self w)).
Proof.
  destruct (run_cases_total (k_or k (ev_k (self w))) (ev_test_cases (self w))
              (set_self (set_results [] (self w)) w) Htotal) as [lats [w2 Hcases]].
  pose proof Hcases as Hok.
  apply run_cases_ok in Hok as (_ & _ & _ & rs & Hres & Hlat & Hall).
  simpl in Hres. pose proof (Forall2_length _ _ _ Hall) as Hlen.
  unfold run_evaluation, mbind, M_bind, get_self.
  cbn -[run_cases p95_of].
  destruct (ev_test_cases (self w)) as [|c0 cs] eqn:Etc; [contradiction|].
  unfold modify_self. rewrite Hcases. cbn -[p95_of]. rewrite Hres.
  simpl in Hlen. simpl length.
  destruct (Nat.eqb_spec (length rs) 0) as [H0|_]; [lia|].
  unfold lift_exc.
  destruct (p95_of_ok lats (length rs)) as [p95 Hp]; [subst lats; apply length_map|lia|].
  rewrite Hp. unfold now_isoformat, mret, M_ret.
  do 2 eexists. split; [reflexivity|]. simpl. symmetry. exact Hlen.
Qed.

(** [run_evaluation] never fails on its own: as soon as a test case is
    registered and the retriever answers every call, it returns a
    summary over all the test cases. *)
Theorem run_evaluation_succeeds (k : option nat) (w : World)
    (Htotal : ∀ t q c kk, ∃ x, ev_retriever (self w) t q c kk = Ok x)
    (Hne : ev_test_cases (self w) ≠ []) :
  ∃ summary w', run_evaluation k w = (Ok summary, w')
                ∧ EvalSummary.num_queries summary = length (ev_test_cases (self w)).
Proof. exact (run_evaluation_total k w Htotal Hne). Qed.

Lemma run_evaluation_succeeds_witness :
  (∀ t q c kk, ∃ x, ev_retriever (self world_hit_miss) t q c kk = Ok x)
  ∧ ev_test_cases (self world_hit_miss) ≠ []
  ∧ ∃ summary w', run_evaluation (Some 3) world_hit_miss = (Ok summary, w')
                  ∧ EvalSummary.num_queries summary = 2.
Proof.
  assert (Htotal : ∀ t q c kk, ∃ x, ev_retriever (self world_hit_miss) t q c kk = Ok x)
    by (intros; eexists; reflexivity).
  assert (Hne : ev_test_cases (self world_hit_miss) ≠ []) by discriminate.
  split; [exact Htotal|split; [exact Hne|]].
  exact (run_evaluation_succeeds (Some 3) world_hit_miss Htotal Hne).
Defined.

(** When the retriever answers the calls for the test cases before
    position [i] and raises on the call for test case [i],
    [run_evaluation] re-raises that exception.  [self.results] then holds
    exactly one result per earlier test case, in order, each one computed
    from the retriever's answer for that case (results of any earlier run
    are gone); the test cases and the default [k] are unchanged. *)
Theorem run_evaluation_failure_keeps_partial_results (k : option nat) (w : World)
    (i : nat) (case : TestCase) (e : PyError)
    (Hi : ev_test_cases (self w) !! i = Some case)
    (Hpre : ∀ j c, j < i → ev_test_cases (self w) !! j = Some c →
        ∃ x, ev_retriever (self w) (ticks w + j) (case_query c) (case_course_id c)
               (k_or k (ev_k (self w))) = Ok x)
    (Hfail : ev_retriever (self w) (ticks w + i) (case_query case) (case_course_id case)
               (k_or k (ev_k (self w))) = Err e) :
  ∃ w', run_evaluation k w = (Err e, w')
    ∧ ev_test_cases (self w') = ev_test_cases (self w)
    ∧ ev_k (self w') = ev_k (self w)
    ∧ length (ev_results (self w')) = i
    ∧ ∀ j r, ev_results (self w') !! j = Some r →
        ∃ c documents latency_ms,
          let kk := k_or k (ev_k (self w)) in
          let retrieved := extract_sources documents in
          ev_test_cases (self w) !! j = Some c
          ∧ ev_retriever (self w) (ticks w + j) (case_query c) (case_course_id c) kk
            = Ok (documents, latency_ms)
          ∧ r = EvalResult.mk (case_query c) (case_expected_sources c) retrieved
                  (_calculate_precision_at_k retrieved (case_expected_sources c) kk)
                  (_calculate_recall_at_k retrieved (case_expected_sources c) kk)
                  (_calculate_reciprocal_rank retrieved (case_expected_sources c))
                  (hit_at_k retrieved (case_expected_sources c) kk)
                  latency_ms.
Proof.
  destruct (ev_test_cases (self w)) as [|c0 cs] eqn:Etc; [discriminate|].
  set (w0 := set_self (set_results [] (self w)) w).
  assert (Hkk : k_or (Some (k_or k (ev_k (self w)))) (ev_k (self w0))
                = k_or k (ev_k (self w))) by apply k_or_some_k_or.
  destruct (run_cases_fail_at (k_or k (ev_k (self w))) (c0 :: cs) w0 i case e)
    as (rs & w' & Hcases & Hself & Hlen & Hrs).
  { intros j c Hj Hc. rewrite Hkk. exact (Hpre j c Hj Hc). }
  { exact Hi. }
  { rewrite Hkk. exact Hfail. }
  exists w'. rewrite Hself. rewrite Hkk in Hrs.
  split; [|split; [exact Etc|split; [reflexivity|split; [exact Hlen|]]]].
  - unfold run_evaluation, mbind, M_bind, get_self.
    cbn -[run_cases]. rewrite Etc. unfold modify_self. fold w0. rewrite Hcases. reflexivity.
  - exact Hrs.
Qed.

Lemma run_evaluation_failure_keeps_partial_results_witness :
  ∃ w', run_evaluation None world_fails_second
          = (Err (RetrieverError "connection reset"), w')
        ∧ length (ev_results (self w')) = 1.
Proof.
  assert (Hi : ev_test_cases (self world_fails_second) !! 1
               = Some (sample_case "What are the office hours?" ["syllabus.pdf"])%string)
    by reflexivity.
  assert (Hpre : ∀ j c, j < 1 → ev_test_cases (self world_fails_second) !! j = Some c →
        ∃ x, ev_retriever (self world_fails_second) (ticks world_fails_second + j)
               (case_query c) (case_course_id c)
               (k_or None (ev_k (self world_fails_second))) = Ok x).
  { intros j c Hj _. assert (j = 0) as -> by lia. eexists. vm_compute. reflexivity. }
  assert (Hfail : ev_retriever (self world_fails_second) (ticks world_fails_second + 1)
        (case_query (sample_case "What are the office hours?" ["syllabus.pdf"])%string)
        (case_course_id (sample_case "What are the office hours?" ["syllabus.pdf"])%string)
        (k_or None (ev_k (self world_fails_second)))
      = Err (RetrieverError "connection reset")) by (vm_compute; reflexivity).
  destruct (run_evaluation_failure_keeps_partial_results None world_fails_second 1 _ _
              Hi Hpre Hfail) as (w' & Hrun & _ & _ & Hlen & _).
  exists w'. split; [exact Hrun|exact Hlen].
Defined.

(** ** The file system is only written by [json.dump] *)

Create HintDb frame_fs.

Lemma preserves_fs_bind {A B} (m : M A) (f : A → M B) :
  preserves_fs m → (∀ a, preserves_fs (f a)) → preserves_fs (mbind f m).
Proof.
  intros Hm Hf w. unfold mbind, M_bind. specialize (Hm w).
  destruct (m w) as [[a|e] w'] eqn:E; simpl in *; [rewrite Hf|]; exact Hm.
Qed.

Lemma preserves_fs_ret {A} (a : A) : preserves_fs (mret a).
Proof. intros w. reflexivity. Qed.

Lemma preserves_fs_raise {A} (e : PyError) : preserves_fs (raise (A:=A) e).
Proof. intros w. reflexivity. Qed.

Lemma preserves_fs_get_self : preserves_fs get_self.
Proof. intros w. reflexivity. Qed.

Lemma preserves_fs_modify_self (f : RetrievalEvaluator → RetrievalEvaluator) :
  preserves_fs (modify_self f).
Proof. intros w. reflexivity. Qed.

Lemma preserves_fs_lift_exc {A} (x : Exc A) : preserves_fs (lift_exc x).
Proof. intros w. reflexivity. Qed.

Lemma preserves_fs_read_json (filepath : string) : preserves_fs (read_json filepath).
Proof. intros w. unfold read_json. destruct (fs w !! filepath); reflexivity. Qed.

Lemma preserves_fs_now : preserves_fs now_isoformat.
Proof. intros w. reflexivity. Qed.

Lemma preserves_fs_call_retriever (r : Retriever) (q : string) (c : option string) (k : nat) :
  preserves_fs (call_retriever r q c k).
Proof. intros w. reflexivity. Qed.

#[local] Hint Resolve preserves_fs_bind preserves_fs_ret preserves_fs_raise
  preserves_fs_get_self preserves_fs_modify_self preserves_fs_lift_exc
  preserves_fs_read_json preserves_fs_now preserves_fs_call_retriever : frame_fs.

Lemma preserves_fs_evaluate_single (q : string) (es : list string) (c : option string)
    (k : option nat) : preserves_fs (evaluate_single q es c k).
Proof.
  unfold evaluate_single. apply preserves_fs_bind; [auto with frame_fs|intros s].
  apply preserves_fs_bind; [auto with frame_fs|intros [documents latency_ms]].
  auto with frame_fs.
Qed.
#[local] Hint Resolve preserves_fs_evaluate_single : frame_fs.

Lemma preserves_fs_run_cases (k : nat) (cases : list TestCase) :
  preserves_fs (run_cases k cases).
Proof. induction cases as [|case rest IH]; simpl; eauto 10 with frame_fs. Qed.
#[local] Hint Resolve preserves_fs_run_cases : frame_fs.

Lemma preserves_fs_run_evaluation (k : option nat) : preserves_fs (run_evaluation k).
Proof.
  unfold run_evaluation. apply preserves_fs_bind; [auto with frame_fs|intros s].
  destruct (ev_test_cases s); [auto with frame_fs|].
  apply preserves_fs_bind; [auto with frame_fs|intros _u].
  apply preserves_fs_bind; [auto with frame_fs|intros latencies].
  apply preserves_fs_bind; [auto with frame_fs|intros s2].
  destruct (Nat.eqb _ 0); eauto 10 with frame_fs.
Qed.

Lemma preserves_fs_add_test_case (q : string) (es : list string) (c : option string) :
  preserves_fs (add_test_case q es c).
Proof. apply preserves_fs_modify_self. Qed.
#[local] Hint Resolve preserves_fs_add_test_case : frame_fs.

Lemma preserves_fs_load_cases (cases : list json) : preserves_fs (load_cases cases).
Proof. induction cases as [|case rest IH]; simpl; eauto 10 with frame_fs. Qed.
#[local] Hint Resolve preserves_fs_load_cases : frame_fs.

Lemma preserves_fs_load_test_cases (filepath : string) :
  preserves_fs (load_test_cases filepath).
Proof. unfold load_test_cases. eauto 10 with frame_fs. Qed.

Lemma preserves_fs_add_cases (cases : list TestCase) : preserves_fs (add_cases cases).
Proof. induction cases as [|case rest IH]; simpl; eauto 10 with frame_fs. Qed.

Lemma run_then_export_written (k : option nat) (w w1 : World) (summary : EvalSummary.t)
    (filepath : string)
    (Hrun : run_evaluation k w = (Ok summary, w1)) :
  ∃ w2 v records,
    export_results filepath w1 = (Ok tt, w2)
    ∧ fs w2 !! filepath = Some v
    ∧ (∀ p, p ≠ filepath → fs w2 !! p = fs w !! p)
    ∧ py_get v "num_queries" = Some (JInt (Z.of_nat (length (ev_test_cases (self w)))))
    ∧ py_get v "results" = Some (JArr records)
    ∧ Forall2 (fun case j =>
         py_get j "query" = Some (JStr (case_query case))
         ∧ py_get j "expected_sources" = Some (JArr (map JStr (case_expected_sources case))))
        (ev_test_cases (self w)) records.
Proof.
  pose proof (preserves_fs_run_evaluation k w) as Hfs. rewrite Hrun in Hfs. simpl in Hfs.
  apply run_evaluation_ok in Hrun as (Hne & _ & _ & _ & Hlen & Hall & _).
  destruct (ev_results (self w1)) as [|r rs] eqn:Eres.
  { destruct (ev_test_cases (self w)); [done|simpl in Hlen; lia]. }
  unfold export_results, mbind, M_bind, get_self. rewrite Eres.
  unfold now_isoformat, write_json. cbn -[json_of_result].
  do 3 eexists. split; [reflexivity|]. split; [apply lookup_insert_eq|split; [|split; [|split]]].
  - intros p Hp. cbn. rewrite lookup_insert_ne by congruence. rewrite Hfs. reflexivity.
  - cbn. rewrite <- Hlen. reflexivity.
  - reflexivity.
  - change (json_of_result r :: map json_of_result rs) with (json_of_result <$> (r :: rs)).
    apply Forall2_fmap_r.
    eapply Forall2_impl; [exact Hall|].
    intros case r' [documents [latency_ms ->]]. split; reflexivity.
Qed.

(** After a successful run, an [export_results] that returns normally
    has written, to its path only, a JSON object whose [num_queries] is
    the number of test cases and whose [results] hold one record per test
    case, in order, with that case's query and expected sources; results
    of earlier runs are not in it. *)
Theorem run_then_export_file (k : option nat) (w w1 w2 : World) (summary : EvalSummary.t)
    (filepath : string)
    (Hrun : run_evaluation k w = (Ok summary, w1))
    (Hexp : export_results filepath w1 = (Ok tt, w2)) :
  ∃ v records,
    fs w2 !! filepath = Some v
    ∧ (∀ p, p ≠ filepath → fs w2 !! p = fs w !! p)
    ∧ py_get v "num_queries" = Some (JInt (Z.of_nat (length (ev_test_cases (self w)))))
    ∧ py_get v "results" = Some (JArr records)
    ∧ Forall2 (fun case j =>
         py_get j "query" = Some (JStr (case_query case))
         ∧ py_get j "expected_sources" = Some (JArr (map JStr (case_expected_sources case))))
        (ev_test_cases (self w)) records.
Proof.
  destruct (run_then_export_written k w w1 summary filepath Hrun)
    as (w2' & v & records & Hexp' & Hrest).
  rewrite Hexp in Hexp'. injection Hexp' as <-.
  exists v, records. exact Hrest.
Qed.

Lemma run_then_export_file_witness :
  run_evaluation None world_hit_miss
    = (Ok (summary_of (run_evaluation None world_hit_miss)),
       snd (run_evaluation None world_hit_miss))
  ∧ export_results "results.json" (snd (run_evaluation None world_hit_miss))
    = (Ok tt, snd (export_results "results.json" (snd (run_evaluation None world_hit_miss))))
  ∧ ∃ v, fs (snd (export_results "results.json" (snd (run_evaluation None world_hit_miss))))
           !! "results.json"%string = Some v
         ∧ py_get v "num_queries" = Some (JInt 2).
Proof.
  assert (Hrun : run_evaluation None world_hit_miss
    = (Ok (summary_of (run_evaluation None world_hit_miss)),
       snd (run_evaluation None world_hit_miss))) by (vm_compute; reflexivity).
  assert (Hexp : export_results "results.json" (snd (run_evaluation None world_hit_miss))
    = (Ok tt, snd (export_results "results.json" (snd (run_evaluation None world_hit_miss)))))
    by (vm_compute; reflexivity).
  split; [exact Hrun|split; [exact Hexp|]].
  destruct (run_then_export_file None world_hit_miss _ _ _ "results.json"%string Hrun Hexp)
    as (v & records & Hv & _ & Hnq & _).
  exists v. split; [exact Hv|exact Hnq].
Defined.

(** ** Loading test-case files *)

Lemma load_cases_ok (js : list json) (cases : list TestCase) (w : World) :
  Forall2 (fun j c => case_args j = Ok c) js cases →
  load_cases js w
  = (Ok tt, set_self (set_test_cases (ev_test_cases (self w) ++ cases) (self w)) w).
Proof.
  intros Hall. revert w. induction Hall as [|j c js cases Hj Hall IH]; intros w.
  - destruct w as [[r k tc rs] f t clk]. simpl. unfold mret, M_ret.
    rewrite app_nil_r. reflexivity.
  - cbn [load_cases]. unfold mbind, M_bind, lift_exc. rewrite Hj.
    unfold add_test_case, modify_self. rewrite IH.
    destruct w as [[r k tc rs] f t clk], c. simpl. rewrite <- app_assoc. reflexivity.
Qed.

Lemma load_cases_app_err (js : list json) (cases : list TestCase) (bad : json)
    (rest : list json) (e : PyError) (w : World) :
  Forall2 (fun j c => case_args j = Ok c) js cases →
  case_args bad = Err e →
  load_cases (js ++ bad :: rest) w
  = (Err e, set_self (set_test_cases (ev_test_cases (self w) ++ cases) (self w)) w).
Proof.
  intros Hall Hbad. revert w. induction Hall as [|j c js cases Hj Hall IH]; intros w.
  - destruct w as [[r k tc rs] f t clk]. cbn [app load_cases]. unfold mbind, M_bind, lift_exc.
    rewrite Hbad. simpl. rewrite app_nil_r. reflexivity.
  - cbn [app load_cases]. unfold mbind, M_bind, lift_exc. rewrite Hj.
    unfold add_test_case, modify_self. fold (app js (bad :: rest)). rewrite IH.
    destruct w as [[r k tc rs] f t clk], c. simpl. rewrite <- app_assoc. reflexivity.
Qed.

Lemma case_args_json_of_test_case_all (tcs : list TestCase) :
  Forall2 (fun j c => case_args j = Ok c) (map json_of_test_case tcs) tcs.
Proof.
  induction tcs as [|c tcs IH]; simpl; constructor; [apply case_args_json_of_test_case|exact IH].
Qed.

(** Loading a file of test cases appends them after the ones already
    registered (nothing is replaced or deduplicated): loading the same
    file twice registers its cases twice. *)
Theorem load_test_cases_appends (tcs : list TestCase) (filepath : string) (w : World)
    (Hfile : fs w !! filepath = Some (JArr (map json_of_test_case tcs))) :
  load_test_cases filepath w
    = (Ok (length tcs), set_self (set_test_cases (ev_test_cases (self w) ++ tcs) (self w)) w)
  ∧ ev_test_cases (self (snd (load_test_cases filepath
                              (snd (load_test_cases filepath w)))))
    = ev_test_cases (self w) ++ tcs ++ tcs.
Proof.
  assert (Hload : ∀ w0, fs w0 !! filepath = Some (JArr (map json_of_test_case tcs)) →
            load_test_cases filepath w0
            = (Ok (length tcs),
               set_self (set_test_cases (ev_test_cases (self w0) ++ tcs) (self w0)) w0)).
  { intros w0 H0. unfold load_test_cases, mbind, M_bind, read_json. rewrite H0.
    unfold lift_exc. cbn [py_iter]. rewrite load_cases_json.
    unfold mret, M_ret. rewrite length_map. reflexivity. }
  split; [exact (Hload w Hfile)|].
  rewrite (Hload w Hfile). simpl. rewrite Hload by exact Hfile.
  simpl. rewrite app_assoc. reflexivity.
Qed.

Lemma load_test_cases_appends_witness :
  let w := snd (save_test_cases "cases.json" world_p95) in
  fs w !! "cases.json"%string
    = Some (JArr (map json_of_test_case (ev_test_cases (self world_p95))))
  ∧ length (ev_test_cases (self (snd (load_test_cases "cases.json"
                                       (snd (load_test_cases "cases.json" w)))))) = 15.
Proof.
  cbv zeta.
  assert (Hfile : fs (snd (save_test_cases "cases.json" world_p95)) !! "cases.json"%string
    = Some (JArr (map json_of_test_case (ev_test_cases (self world_p95)))))
    by (vm_compute; reflexivity).
  split; [exact Hfile|].
  rewrite (proj2 (load_test_cases_appends _ _ _ Hfile)). reflexivity.
Defined.

(** A record missing ["query"] (or, with a query, missing
    ["expected_sources"]) makes [load_test_cases] raise [KeyError] for
    that key; the records before it stay registered. *)
Theorem load_test_cases_missing_key_partial (good : list TestCase)
    (fields : list (string * json)) (rest : list json) (filepath : string) (w : World)
    (Hfile : fs w !! filepath
             = Some (JArr (map json_of_test_case good ++ JObj fields :: rest))) :
  let partial := set_self (set_test_cases (ev_test_cases (self w) ++ good) (self w)) w in
  (json_get "query" fields = None →
     load_test_cases filepath w = (Err (KeyError "query"), partial))
  ∧ (json_get "query" fields ≠ None → json_get "expected_sources" fields = None →
     load_test_cases filepath w = (Err (KeyError "expected_sources"), partial)).
Proof.
  cbv zeta.
  assert (Hgen : ∀ e, case_args (JObj fields) = Err e →
            load_test_cases filepath w
            = (Err e, set_self (set_test_cases (ev_test_cases (self w) ++ good) (self w)) w)).
  { intros e He. unfold load_test_cases, mbind, M_bind, read_json. rewrite Hfile.
    unfold lift_exc. cbn [py_iter].
    rewrite (load_cases_app_err _ good _ rest e w (case_args_json_of_test_case_all good) He).
    reflexivity. }
  split.
  - intros Hq. apply Hgen. unfold case_args, py_getitem. rewrite Hq. reflexivity.
  - intros Hq Hes. apply Hgen. unfold case_args, py_getitem.
    destruct (json_get "query" fields) as [q|]; [|contradiction].
    rewrite Hes. reflexivity.
Qed.

Lemma load_test_cases_missing_key_partial_witness :
  let w := mkWorld (__init__ retriever_syllabus 5)
             {[ "cases.json"%string :=
                  JArr (map json_of_test_case
                          [sample_case "What is the grading policy?" ["syllabus.pdf"]]%string
                        ++ [JObj [("question", JStr "What are the office hours?")]%string]) ]}
             0 sample_clock in
  length (ev_test_cases (self (snd (load_test_cases "cases.json" w)))) = 1
  ∧ fst (load_test_cases "cases.json" w) = Err (KeyError "query").
Proof.
  cbv zeta.
  set (w := mkWorld (__init__ retriever_syllabus 5)
             {[ "cases.json"%string :=
                  JArr (map json_of_test_case
                          [sample_case "What is the grading policy?" ["syllabus.pdf"]]%string
                        ++ [JObj [("question", JStr "What are the office hours?")]%string]) ]}
             0 sample_clock).
  assert (Hfile : fs w !! "cases.json"%string
    = Some (JArr (map json_of_test_case
                    [sample_case "What is the grading policy?" ["syllabus.pdf"]]%string
                  ++ JObj [("question", JStr "What are the office hours?")]%string :: [])))
    by (vm_compute; reflexivity).
  rewrite (proj1 (load_test_cases_missing_key_partial _ _ _ _ w Hfile) eq_refl).
  split; reflexivity.
Defined.

(** A file whose content is not a list registers nothing: an empty
    object or empty string loads zero cases, a missing file raises
    [FileNotFoundError], and any other content (a number, a boolean,
    [null], a non-empty object or string) raises [TypeError]. *)
Theorem load_test_cases_non_list (filepath : string) (w : World) :
  (fs w !! filepath = None →
     load_test_cases filepath w = (Err (FileNotFoundError filepath), w))
  ∧ (fs w !! filepath = Some (JArr []) ∨ fs w !! filepath = Some (JObj [])
     ∨ fs w !! filepath = Some (JStr EmptyString) →
     load_test_cases filepath w = (Ok 0, w))
  ∧ (∀ v, fs w !! filepath = Some v → (∀ xs, v ≠ JArr xs) → v ≠ JObj [] →
       v ≠ JStr EmptyString →
       ∃ msg, load_test_cases filepath w = (Err (TypeError msg), w)).
Proof.
  unfold load_test_cases, mbind, M_bind, read_json, lift_exc.
  split; [|split].
  - intros H. rewrite H. reflexivity.
  - intros [H|[H|H]]; rewrite H; reflexivity.
  - intros v H Harr Hobj Hstr. rewrite H.
    destruct v as [| | | |s|xs|fields]; cbn [py_iter];
      try (eexists; reflexivity).
    + destruct s as [|c s]; [contradiction|]. cbn. eexists. reflexivity.
    + by destruct (Harr xs).
    + destruct fields as [|[key v] fields]; [contradiction|]. cbn. eexists. reflexivity.
Qed.

(** A record without a ["course_id"] key registers an unscoped test case
    (course [None]), wherever it stands in the file and whatever the
    other records carry; extra keys and the order of keys do not matter. *)
Theorem load_test_cases_absent_course_id (js1 js2 : list json) (cs1 cs2 : list TestCase)
    (fields : list (string * json)) (query : string) (expected_sources : list string)
    (filepath : string) (w : World)
    (Hfile : fs w !! filepath = Some (JArr (js1 ++ JObj fields :: js2)))
    (H1 : Forall2 (fun j c => case_args j = Ok c) js1 cs1)
    (H2 : Forall2 (fun j c => case_args j = Ok c) js2 cs2)
    (Hq : json_get "query" fields = Some (JStr query))
    (Hes : json_get "expected_sources" fields = Some (JArr (map JStr expected_sources)))
    (Hc : json_get "course_id" fields = None) :
  load_test_cases filepath w
  = (Ok (length js1 + S (length js2)),
     set_self (set_test_cases (ev_test_cases (self w)
                ++ cs1 ++ mkTestCase query expected_sources None :: cs2) (self w)) w).
Proof.
  unfold load_test_cases, mbind, M_bind, read_json. rewrite Hfile.
  unfold lift_exc. cbn [py_iter].
  rewrite (load_cases_ok _ (cs1 ++ mkTestCase query expected_sources None :: cs2)).
  - unfold mret, M_ret. rewrite length_app. reflexivity.
  - apply Forall2_app; [exact H1|]. constructor; [|exact H2].
    unfold case_args, py_getitem, py_get. rewrite Hq, Hes, Hc. simpl.
    rewrite strs_of_jsons_map_JStr. reflexivity.
Qed.

Lemma load_test_cases_absent_course_id_witness :
  let js1 := [json_of_test_case (mkTestCase "When is the midterm?" ["schedule.pdf"]
                                   (Some "CS101"))]%string in
  let fields := [("expected_sources", JArr [JStr "syllabus.pdf"]);
                 ("notes", JStr "check the rubric");
                 ("query", JStr "What is the grading policy?")]%string in
  let js2 := [json_of_test_case (mkTestCase "Who teaches the course?" ["syllabus.pdf"]
                                   (Some "CS102"))]%string in
  let w := mkWorld (__init__ retriever_syllabus 5)
             {[ "cases.json"%string := JArr (js1 ++ JObj fields :: js2) ]} 0 sample_clock in
  load_test_cases "cases.json" w
  = (Ok 3, set_self (set_test_cases
       [mkTestCase "When is the midterm?" ["schedule.pdf"] (Some "CS101");
        mkTestCase "What is the grading policy?" ["syllabus.pdf"] None;
        mkTestCase "Who teaches the course?" ["syllabus.pdf"] (Some "CS102")]%string
       (__init__ retriever_syllabus 5)) w).
Proof.
  cbv zeta.
  set (js1 := [json_of_test_case (mkTestCase "When is the midterm?" ["schedule.pdf"]
                                    (Some "CS101"))]%string).
  set (fields := [("expected_sources", JArr [JStr "syllabus.pdf"]);
                  ("notes", JStr "check the rubric");
                  ("query", JStr "What is the grading policy?")]%string).
  set (js2 := [json_of_test_case (mkTestCase "Who teaches the course?" ["syllabus.pdf"]
                                    (Some "CS102"))]%string).
  set (w := mkWorld (__init__ retriever_syllabus 5)
              {[ "cases.json"%string := JArr (js1 ++ JObj fields :: js2) ]} 0 sample_clock).
  assert (Hfile : fs w !! "cases.json"%string = Some (JArr (js1 ++ JObj fields :: js2)))
    by (vm_compute; reflexivity).
  exact (load_test_cases_absent_course_id js1 js2
           [mkTestCase "When is the midterm?" ["schedule.pdf"] (Some "CS101")]%string
           [mkTestCase "Who teaches the course?" ["syllabus.pdf"] (Some "CS102")]%string
           fields "What is the grading policy?"%string ["syllabus.pdf"]%string
           "cases.json"%string w Hfile
           (ltac:(constructor; [vm_compute; reflexivity|constructor]))
           (ltac:(constructor; [vm_compute; reflexivity|constructor]))
           ltac:(vm_compute; reflexivity) ltac:(vm_compute; reflexivity)
           ltac:(vm_compute; reflexivity)).
Defined.

(** ** The command line *)

Lemma add_cases_ok (cases : list TestCase) (w : World) :
  add_cases cases w
  = (Ok tt, set_self (set_test_cases (ev_test_cases (self w) ++ cases) (self w)) w).
Proof.
  revert w. induction cases as [|c cases IH]; intros w.
  - destruct w as [[r k tc rs] f t clk]. simpl. unfold mret, M_ret.
    rewrite app_nil_r. reflexivity.
  - cbn [add_cases]. unfold mbind, M_bind, add_test_case, modify_self. rewrite IH.
    destruct w as [[r k tc rs] f t clk], c. simpl. rewrite <- app_assoc. reflexivity.
Qed.

Lemma export_results_written (filepath : string) (w w' : World) :
  export_results filepath w = (Ok tt, w') →
  self w' = self w
  ∧ ∃ v, fs w' !! filepath = Some v
         ∧ (∀ p, p ≠ filepath → fs w' !! p = fs w !! p)
         ∧ py_get v "k" = Some (JInt (Z.of_nat (ev_k (self w))))
         ∧ py_get v "num_queries" = Some (JInt (Z.of_nat (length (ev_results (self w)))))
         ∧ py_get v "results" = Some (JArr (map json_of_result (ev_results (self w)))).
Proof.
  unfold export_results, mbind, M_bind, get_self. cbn -[json_of_result].
  destruct (ev_results (self w)) as [|r rs] eqn:Eres; [discriminate|].
  unfold now_isoformat, write_json. cbn -[json_of_result].
  intros H. inversion H; subst. clear H. split; [reflexivity|].
  eexists. split; [apply lookup_insert_eq|split; [|split; [reflexivity|split; reflexivity]]].
  intros p Hp. cbn. apply lookup_insert_ne. congruence.
Qed.

Lemma py_truthy_str_some (p : string) : p ≠ EmptyString → py_truthy_str (Some p) = Some p.
Proof. intros Hp. destruct p; [contradiction|reflexivity]. Qed.

Lemma py_truthy_str_none : py_truthy_str None = None.
Proof. reflexivity. Qed.

Lemma k_or_self (k : nat) : k_or (Some k) k = k.
Proof. destruct k; reflexivity. Qed.



(** In the command line the evaluator is built with [--k] and run with
    [--k]: the exported [k] is the one every stored metric was computed
    with, including [--k 0]. *)
Theorem cli_export_k_matches_metrics (retriever : Retriever) (test_file : option string)
    (k : nat) (export : string) (w w' : World)
    (Hexport : export ≠ EmptyString)
    (Hcli : cli_main retriever test_file k (Some export) None w = (Ok tt, w')) :
  ∃ v, fs w' !! export = Some v
       ∧ py_get v "k" = Some (JInt (Z.of_nat k))
       ∧ py_get v "results" = Some (JArr (map json_of_result (ev_results (self w'))))
       ∧ Forall (fun r =>
            EvalResult.precision_at_k r
              = _calculate_precision_at_k (EvalResult.retrieved_sources r)
                  (EvalResult.expected_sources r) k
            ∧ EvalResult.recall_at_k r
              = _calculate_recall_at_k (EvalResult.retrieved_sources r)
                  (EvalResult.expected_sources r) k
            ∧ EvalResult.hit r
              = hit_at_k (EvalResult.retrieved_sources r) (EvalResult.expected_sources r) k)
          (ev_results (self w')).
Proof.
  unfold cli_main in Hcli. rewrite py_truthy_str_none in Hcli.
  rewrite py_truthy_str_some in Hcli by exact Hexport.
  set (load := match py_truthy_str test_file with
               | Some p => _n ← load_test_cases p; mret tt
               | None => add_cases create_sample_test_cases
               end) in Hcli.
  unfold mbind, M_bind, modify_self in Hcli.
  set (w1 := set_self (__init__ retriever k) w) in Hcli.
  assert (Hload_k : preserves_k load).
  { unfold load. destruct (py_truthy_str test_file).
    - apply preserves_k_bind; [apply preserves_k_load_test_cases|intros; apply preserves_k_ret].
    - intros w0. rewrite add_cases_ok. reflexivity. }
  destruct (load w1) as [[u|e] w2] eqn:Eload; [|discriminate].
  assert (Hk2 : ev_k (self w2) = k).
  { pose proof (Hload_k w1) as H. rewrite Eload in H. exact H. }
  destruct (run_evaluation (Some k) w2) as [[summary|e] w3] eqn:Erun; [|discriminate].
  apply run_evaluation_ok in Erun as (_ & Hk3 & _ & _ & _ & Hall & _).
  rewrite Hk2, k_or_self in Hall.
  apply export_results_written in Hcli as (Hself & v & Hv & _ & Hvk & _ & Hvr).
  exists v. rewrite Hself. split; [exact Hv|split; [|split; [exact Hvr|]]].
  - rewrite Hvk, Hk3, Hk2. reflexivity.
  - eapply Forall2_Forall_r; [exact Hall|]. apply Forall_forall.
    intros case _ r [documents [latency_ms ->]]. repeat split.
Qed.

Lemma cli_export_k_matches_metrics_witness :
  let w' := snd (cli_main retriever_syllabus None 0 (Some "results.json") None
                   (world_of (__init__ retriever_syllabus 5))) in
  cli_main retriever_syllabus None 0 (Some "results.json") None
    (world_of (__init__ retriever_syllabus 5)) = (Ok tt, w')
  ∧ ∃ v, fs w' !! "results.json"%string = Some v ∧ py_get v "k" = Some (JInt 0).
Proof.
  cbv zeta.
  assert (Hcli : cli_main retriever_syllabus None 0 (Some "results.json") None
    (world_of (__init__ retriever_syllabus 5))
    = (Ok tt, snd (cli_main retriever_syllabus None 0 (Some "results.json") None
                   (world_of (__init__ retriever_syllabus 5))))) by (vm_compute; reflexivity).
  split; [exact Hcli|].
  destruct (cli_export_k_matches_metrics retriever_syllabus None 0 "results.json"%string _ _
              ltac:(discriminate) Hcli) as (v & Hv & Hk & _).
  exists v. split; [exact Hv|exact Hk].
Defined.

(** Without a non-empty [--test-file], a command line run that returns
    normally has evaluated exactly the five sample test cases, in order,
    and [--export] has written [num_queries = 5]. *)
Theorem cli_runs_sample_cases (retriever : Retriever) (test_file export : option string)
    (k : nat) (w w' : World)
    (Htest : py_truthy_str test_file = None)
    (Hcli : cli_main retriever test_file k export None w = (Ok tt, w')) :
  ev_test_cases (self w') = create_sample_test_cases
  ∧ Forall2 (fun c r => EvalResult.query r = case_query c)
      create_sample_test_cases (ev_results (self w'))
  ∧ (∀ p, py_truthy_str export = Some p →
       ∃ v, fs w' !! p = Some v
            ∧ py_get v "num_queries"
              = Some (JInt (Z.of_nat (length create_sample_test_cases)))).
Proof.
  unfold cli_main in Hcli. rewrite py_truthy_str_none, Htest in Hcli.
  unfold mbind at 1, M_bind at 1, modify_self in Hcli.
  set (w1 := set_self (__init__ retriever k) w) in Hcli.
  unfold mbind at 1, M_bind at 1 in Hcli. rewrite add_cases_ok in Hcli.
  set (w2 := set_self (set_test_cases (ev_test_cases (self w1) ++ create_sample_test_cases)
                        (self w1)) w1) in Hcli.
  unfold mbind, M_bind in Hcli.
  destruct (run_evaluation (Some k) w2) as [[summary|e] w3] eqn:Erun; [|discriminate].
  apply run_evaluation_ok in Erun as (_ & _ & Htc & _ & Hlen & Hall & _).
  assert (Hq : Forall2 (fun c r => EvalResult.query r = case_query c)
                 create_sample_test_cases (ev_results (self w3))).
  { eapply Forall2_impl; [exact Hall|]. intros case r [documents [latency_ms ->]].
    reflexivity. }
  destruct (py_truthy_str export) as [p|] eqn:Eexp.
  - apply export_results_written in Hcli as [Hself (v & Hv & _ & _ & Hnq & _)].
    rewrite Hself. split; [exact Htc|split; [exact Hq|]].
    intros p' Hp'. injection Hp' as <-. exists v. split; [exact Hv|].
    rewrite Hnq, Hlen. reflexivity.
  - unfold mret, M_ret in Hcli. injection Hcli as <-.
    split; [exact Htc|split; [exact Hq|discriminate]].
Qed.

Lemma cli_runs_sample_cases_witness :
  let w := world_of (__init__ retriever_syllabus 5) in
  let r := cli_main retriever_syllabus (Some "") 5 (Some "results.json") None w in
  py_truthy_str (Some "") = None
  ∧ r = (Ok tt, snd r)
  ∧ ∃ v, fs (snd r) !! "results.json"%string = Some v
         ∧ py_get v "num_queries" = Some (JInt 5).
Proof.
  cbv zeta.
  set (w := world_of (__init__ retriever_syllabus 5)).
  assert (Htest : py_truthy_str (Some "") = None) by reflexivity.
  assert (Hcli : cli_main retriever_syllabus (Some "") 5 (Some "results.json") None w
                 = (Ok tt, snd (cli_main retriever_syllabus (Some "") 5
                                  (Some "results.json") None w)))
    by (vm_compute; reflexivity).
  split; [exact Htest|split; [exact Hcli|]].
  destruct (cli_runs_sample_cases retriever_syllabus (Some "") (Some "results.json") 5
              w _ Htest Hcli) as (_ & _ & Hexp).
  exact (Hexp "results.json"%string eq_refl).
Defined.

(** A [--test-file] holding an empty list makes the command line stop
    with [run_evaluation]'s [ValueError]: no retrieval is made and no
    file is written, whatever [--export] says. *)
Theorem cli_empty_test_file (retriever : Retriever) (test_file : string) (k : nat)
    (export : option string) (w : World)
    (Htest : test_file ≠ EmptyString)
    (Hfile : fs w !! test_file = Some (JArr [])) :
  cli_main retriever (Some test_file) k export None w
  = (Err (ValueError
       "No test cases added. Use add_test_case() or load_test_cases() first."),
     set_self (__init__ retriever k) w).
Proof.
  unfold cli_main. rewrite py_truthy_str_none, py_truthy_str_some by exact Htest.
  assert (Hload : load_test_cases test_file (set_self (__init__ retriever k) w)
                  = (Ok 0, set_self (__init__ retriever k) w)).
  { unfold load_test_cases, mbind, M_bind, read_json. cbn [fs set_self].
    rewrite Hfile. reflexivity. }
  unfold mbind, M_bind, modify_self. cbv beta. rewrite Hload. reflexivity.
Qed.

Lemma cli_empty_test_file_witness :
  let w := mkWorld (__init__ retriever_syllabus 5) {[ "cases.json"%string := JArr [] ]}
             0 sample_clock in
  "cases.json"%string ≠ EmptyString
  ∧ fs w !! "cases.json"%string = Some (JArr [])
  ∧ fst (cli_main retriever_syllabus (Some "cases.json") 5 (Some "results.json") None w)
    = Err (ValueError
        "No test cases added. Use add_test_case() or load_test_cases() first.").
Proof.
  cbv zeta.
  set (w := mkWorld (__init__ retriever_syllabus 5) {[ "cases.json"%string := JArr [] ]}
              0 sample_clock).
  assert (Htest : "cases.json"%string ≠ EmptyString) by discriminate.
  assert (Hfile : fs w !! "cases.json"%string = Some (JArr [])) by (vm_compute; reflexivity).
  split; [exact Htest|split; [exact Hfile|]].
  rewrite (cli_empty_test_file retriever_syllabus _ 5 (Some "results.json"%string) w
             Htest Hfile).
  reflexivity.
Defined.
